(** * Simple uptime monitor: probe loop, backoff, sample window, ordering

    A shallow embedding of the monitoring core of [main.py]:
    [tcp_ping], [MonitorThread.run], [Sparkline.push] and the percentile of
    [Sparkline._redraw], [HostPanel.start] and [HostPanel._apply_result],
    and [App._sort_panels].

    Numbers.  Python [int] is [Z].  Python [float] is modelled by exact
    rationals [Q]: the float operations the monitor performs on seconds and
    milliseconds are comparison, [min], [max], multiplication by a power of
    two and one subtraction, of which only the subtraction rounds in
    binary64.  The one float product that is truncated to an integer,
    [int(len(xs) * 0.95)], is also evaluated in binary64
    ([Sparkline.p95_index_binary64]). *)

From Stdlib Require Import ZArith QArith Qround Qminmax Floats.
From Stdlib Require Import List Bool Lia String Ascii DecimalString.
From Stdlib Require Import Sorting.Sorted Sorting.Permutation.
Import ListNotations.

(* ------------------------------------------------------------------ *)
(** * Python values *)

Module Py.

(** [x or d] for a float-or-None [x] and a float [d]: [None] and [0.0] are
    falsy. *)
Definition or_else (x : option Q) (d : Q) : Q :=
  match x with
  | None => d
  | Some q => if Qeq_bool q 0 then d else q
  end.

(** [x or d] for two floats. *)
Definition for_else (x d : Q) : Q := if Qeq_bool x 0 then d else x.

End Py.

(* ------------------------------------------------------------------ *)
(** * Core logic *)

(** What the network does to one connection attempt: [s.connect] returns
    after some milliseconds, or raises an exception with a message. *)
Inductive connect_behaviour : Type :=
| Connects (latency_ms : Q)
| Raises (msg : string).

(** What [socket.socket(...)] and [s.settimeout(timeout)] do, on the two
    lines that precede the [try] of [tcp_ping]: they succeed, or one of
    them raises (no socket can be made; the timeout does not fit the
    platform's time type). *)
Inductive setup_behaviour : Type :=
| SetupOk
| SetupRaises (msg : string).

(** How a call of [tcp_ping] ends: with the triple it returns, or with an
    exception that escapes it. *)
Inductive ping_result : Type :=
| Returned (r : bool * option Q * option string)
| Escaped (msg : string).

(** The [try] statement of [tcp_ping] (lines 46-60):
    [(ok, latency_ms | None, error | None)].  Every exception of [connect]
    is caught there and turned into the failure triple. *)
Definition tcp_ping_try (net : connect_behaviour) : bool * option Q * option string :=
  match net with
  | Connects latency => (true, Some latency, None)
  | Raises e => (false, None, Some e)
  end.

(** [tcp_ping]: the socket is made and its timeout is set outside the
    [try], so an exception of these two lines escapes the function. *)
Definition tcp_ping (setup : setup_behaviour) (net : connect_behaviour) : ping_result :=
  match setup with
  | SetupRaises msg => Escaped msg
  | SetupOk => Returned (tcp_ping_try net)
  end.

(** The dataclass [MonitorConfig]. *)
Record MonitorConfig : Type := mkConfig {
  host : string;
  port : Z;
  interval : Q;
  timeout : Q;
  sound_on_change : bool
}.

(** The dict a worker puts on its queue after each probe. *)
Record ProbeDict : Type := mkDict {
  d_ts : Q;
  d_ok : bool;
  d_latency : option Q;
  d_error : option string;
  d_host : string;
  d_port : Z
}.

Module MonitorThread.

(** [self._max_backoff = 30.0] *)
Definition _max_backoff : Q := 30.

(** Lines 97-100: the streak update. *)
Definition update_failures (ok : bool) (_failures : Z) : Z :=
  if ok then 0%Z else Z.min (_failures + 1) 10.

(** Line 103:
    [min(self._max_backoff, base * (2 ** self._failures))
       if self._failures > 0 else base]. *)
Definition backoff (base : Q) (_failures : Z) : Q :=
  if (_failures >? 0)%Z
  then Qmin _max_backoff (base * inject_Z (2 ^ _failures))
  else base.

(** Line 104: [wait = max(0.0, backoff - elapsed)]. *)
Definition wait (base : Q) (_failures : Z) (elapsed : Q) : Q :=
  Qmax 0 (backoff base _failures - elapsed).

(** What one pass of the [while] loop meets.  The thread's [cfg] is the
    very object the panel holds and the application mutates, so each pass
    reads the fields as they are at that moment: [cfg_now].  [stop_is_set]
    is the answer of [self._stop.is_set()] at the loop test and
    [stop_in_wait] the answer of [self._stop.wait(wait)], unless that call
    raises ([wait_raises]: the wait does not fit the platform's time type).
    [setup] and [net] are what the call of [tcp_ping] meets. *)
Record cycle : Type := mkPass {
  stop_is_set : bool;
  cfg_now : MonitorConfig;
  setup : setup_behaviour;
  net : connect_behaviour;
  ts : Q;
  elapsed : Q;
  wait_raises : option string;
  stop_in_wait : bool
}.

(** A pass in which no exception escapes: the socket is made, its timeout
    is set and the wait is accepted. *)
Definition mkCycle (stop_at_test : bool) (cfg : MonitorConfig)
           (connect : connect_behaviour) (stamp took : Q) (stop_at_wait : bool)
  : cycle :=
  mkPass stop_at_test cfg SetupOk connect stamp took None stop_at_wait.

(** Observable trace of a run over finitely many passes. *)
Record trace : Type := mkTrace {
  out_q : list ProbeDict;   (* items put on the queue, oldest first *)
  waits : list Q;           (* the argument of each [_stop.wait] *)
  failures_end : Z;         (* [self._failures] at the end *)
  stopped : bool;           (* the thread has left [run], by its return or
                               by an exception *)
  raised : option string    (* the exception that ended [run], if one did *)
}.

(** The dict that is put on the queue for the triple [tcp_ping] returned. *)
Definition put (c : cycle) (r : bool * option Q * option string) : ProbeDict :=
  let '(ok, latency, err) := r in
  mkDict c.(ts) ok latency err c.(cfg_now).(host) c.(cfg_now).(port).

(** The dict of a pass whose call of [tcp_ping] returns. *)
Definition emit (c : cycle) : ProbeDict := put c (tcp_ping_try c.(net)).

(** [run], unfolded over the passes the environment supplies.  [run] has no
    [try]: an exception that escapes [tcp_ping] or [self._stop.wait] ends
    the thread.  When the supply ends the thread is still in its loop
    ([stopped = false]). *)
Fixpoint run (_failures : Z) (cs : list cycle) : trace :=
  match cs with
  | [] => mkTrace [] [] _failures false None
  | c :: rest =>
      if c.(stop_is_set) then mkTrace [] [] _failures true None
      else
        match tcp_ping c.(setup) c.(net) with
        | Escaped msg => mkTrace [] [] _failures true (Some msg)
        | Returned r =>
            let item := put c r in
            let f := update_failures item.(d_ok) _failures in
            let w := wait c.(cfg_now).(interval) f c.(elapsed) in
            match c.(wait_raises) with
            | Some msg => mkTrace [item] [w] f true (Some msg)
            | None =>
                if c.(stop_in_wait) then mkTrace [item] [w] f true None
                else
                  let t := run f rest in
                  mkTrace (item :: t.(out_q)) (w :: t.(waits)) t.(failures_end)
                          t.(stopped) t.(raised)
            end
        end
  end.

(** The streak after a sequence of probe outcomes, from [_failures = 0]. *)
Definition streak_after (outcomes : list bool) : Z :=
  fold_left (fun f ok => update_failures ok f) outcomes 0%Z.

End MonitorThread.

(* ------------------------------------------------------------------ *)
(** * Strings: [str.strip] and [str.lower]

    A character is a code point below 256.  [str.isspace] holds there for
    TAB..CR, FS..US, SPACE, NEL (133) and NBSP (160); [str.lower] maps A..Z
    and the Latin-1 capitals 192..222 (but 215, the multiplication sign) 32
    code points up. *)

Module Str.

Definition isspace (c : ascii) : bool :=
  let n := nat_of_ascii c in
  ((9 <=? n) && (n <=? 13) || (28 <=? n) && (n <=? 32)
   || (n =? 133) || (n =? 160))%nat.

Fixpoint lstrip (s : string) : string :=
  match s with
  | EmptyString => EmptyString
  | String c s' => if isspace c then lstrip s' else s
  end.

Fixpoint rstrip (s : string) : string :=
  match s with
  | EmptyString => EmptyString
  | String c s' =>
      match rstrip s' with
      | EmptyString => if isspace c then EmptyString else String c EmptyString
      | r => String c r
      end
  end.

Definition strip (s : string) : string := rstrip (lstrip s).

Definition lower_char (c : ascii) : ascii :=
  let n := nat_of_ascii c in
  if ((65 <=? n) && (n <=? 90)
      || (192 <=? n) && (n <=? 222) && negb (n =? 215))%nat
  then ascii_of_nat (n + 32) else c.

Fixpoint lower (s : string) : string :=
  match s with
  | EmptyString => EmptyString
  | String c s' => String (lower_char c) (lower s')
  end.

(** ["{}".format(n)] for an [int]. *)
Definition of_int (n : Z) : string := NilEmpty.string_of_int (Z.to_int n).

End Str.

(* ------------------------------------------------------------------ *)
(** * [sorted(xs, key=k)]

    Python's sort is stable and compares keys with [<] only.  For keys that
    [<] orders as a strict weak order every stable sort returns the same
    list; it is written here as the stable insertion sort. *)

Section SortedByKey.

Variables (A K : Type) (k : A -> K) (ltb : K -> K -> bool).

Fixpoint insert (x : A) (l : list A) : list A :=
  match l with
  | [] => [x]
  | y :: l' => if ltb (k y) (k x) then y :: insert x l' else x :: l
  end.

Fixpoint sorted (l : list A) : list A :=
  match l with
  | [] => []
  | x :: l' => insert x (sorted l')
  end.

End SortedByKey.

Arguments insert {A K} k ltb x l.
Arguments sorted {A K} k ltb l.

(* ------------------------------------------------------------------ *)
(** * Sparkline: the sample window *)

Module Sparkline.

Record t : Type := mk {
  max_points : Z;
  points : list (Q * bool)
}.

(** [__init__(self, master, max_points=80, ...)] *)
Definition default_max_points : Z := 80.

Definition init (max_points : Z) : t := mk max_points [].

(** [points.pop(0)] *)
Definition pop0 (l : list (Q * bool)) : list (Q * bool) := tl l.

(** [push]: append, then drop the first point when the list is too long. *)
Definition push (s : t) (latency_ms : option Q) (ok : bool) : t :=
  let v := (Py.or_else latency_ms 0, ok) in
  let pts := s.(points) ++ [v] in
  if (Z.of_nat (List.length pts) >? s.(max_points))%Z
  then mk s.(max_points) (pop0 pts)
  else mk s.(max_points) pts.

Definition Qltb (x y : Q) : bool :=
  match x ?= y with Lt => true | _ => false end.

(** [[p[0] for p in self.points if p[1]] or [0.0]] *)
Definition ok_vals (pts : list (Q * bool)) : list Q :=
  map fst (filter snd pts).

Definition lat_vals (pts : list (Q * bool)) : list Q :=
  match ok_vals pts with
  | [] => [0]
  | l => l
  end.

Definition lat_vals_sorted (pts : list (Q * bool)) : list Q :=
  sorted (fun x => x) Qltb (lat_vals pts).

(** [int(x)] for a float: truncation towards zero. *)
Definition py_int (x : Q) : Z :=
  if Qle_bool 0 x then Qfloor x else Qceiling x.

(** [int(max(0, int(len(lat_vals_sorted) * 0.95) - 1))] *)
Definition p95_index_of (len : Z) : Z :=
  Z.max 0 (py_int (inject_Z len * (95 # 100)) - 1).

(** The same index with the product [len * 0.95] taken in binary64, where
    [0.95] is the double [0x1.e666666666666p-1], and [int] truncating the
    double that results.  [None] is a product that is not a finite
    non-negative double. *)
Definition int_of_float (x : float) : option Z :=
  match Prim2SF x with
  | S754_zero _ => Some 0%Z
  | S754_finite false m e =>
      Some (if (0 <=? e)%Z then Z.shiftl (Zpos m) e else Z.shiftr (Zpos m) (- e))
  | _ => None
  end.

Definition p95_index_binary64 (len : Z) : option Z :=
  option_map (fun i => Z.max 0 (i - 1))
    (int_of_float (PrimFloat.mul (PrimFloat.of_uint63 (Uint63.of_Z len))
                                 0x1.e666666666666p-1%float)).

(** [... if lat_vals_sorted else 0] *)
Definition p95_index (pts : list (Q * bool)) : Z :=
  match lat_vals_sorted pts with
  | [] => 0%Z
  | l => p95_index_of (Z.of_nat (List.length l))
  end.

(** [lat_vals_sorted[p95_index] if lat_vals_sorted else 0.0]; [None] stands
    for [IndexError]. *)
Definition p95 (pts : list (Q * bool)) : option Q :=
  match lat_vals_sorted pts with
  | [] => Some 0
  | l => nth_error l (Z.to_nat (p95_index pts))
  end.

(** [p95 or 20.0] *)
Definition p95_or_default (pts : list (Q * bool)) : option Q :=
  option_map (fun v => Py.for_else v 20) (p95 pts).

(** [max_v = max(20.0, p95 or 20.0)]; [_redraw] returns before computing it
    when there are no points at all. *)
Definition max_v (pts : list (Q * bool)) : option Q :=
  match pts with
  | [] => None
  | _ => option_map (Qmax 20) (p95_or_default pts)
  end.

(** [last_latency] *)
Fixpoint last_latency_rev (rpts : list (Q * bool)) : Q :=
  match rpts with
  | [] => 1000000000000
  | (lat, true) :: _ => lat
  | (_, false) :: r => last_latency_rev r
  end.

Definition last_latency (s : t) : Q := last_latency_rev (rev s.(points)).

End Sparkline.

(* ------------------------------------------------------------------ *)
(** * Host panel *)

Module HostPanel.

(** The [MonitorThread] object a panel refers to: its stop event and
    whether the thread is alive.  The thread's [cfg] and [out_q] are the
    panel's own objects and are kept once, in the panel. *)
Record thread : Type := mkThread {
  _stop : bool;
  is_alive : bool;
  _failures : Z
}.

Record t : Type := mk {
  cfg : MonitorConfig;
  worker : option thread;
  out_q : list ProbeDict;
  status_lbl : string;
  _last_ok : option bool;
  _last_latency : Q;
  spark : Sparkline.t
}.

(** [self.worker and self.worker.is_alive()] *)
Definition worker_alive (p : t) : bool :=
  match p.(worker) with
  | Some w => w.(is_alive)
  | None => false
  end.

(** [start]: nothing happens when a live worker exists or when the host is
    blank; otherwise the global defaults overwrite the config's interval and
    timeout, a fresh queue and thread are made and the thread is started. *)
Definition start (p : t) (defaults : Q * Q) : t :=
  if worker_alive p then p
  else
    let host' := Str.strip p.(cfg).(host) in
    if String.eqb host' EmptyString then p
    else
      let '(d_interval, d_timeout) := defaults in
      let c := p.(cfg) in
      let c' := mkConfig c.(host) c.(port) (Qmax (1 # 2) d_interval)
                         (Qmax (1 # 2) d_timeout) c.(sound_on_change) in
      mk c' (Some (mkThread false true 0)) []
         ("Checking " ++ c.(host) ++ ":" ++ Str.of_int c.(port) ++ "...")%string
         p.(_last_ok) p.(_last_latency) p.(spark).

(** [__init__]: the fields, then [self.start()]. *)
Definition init (c : MonitorConfig) (defaults : Q * Q) : t :=
  start (mk c None [] "Idle"%string None 1000000000000 (Sparkline.init 100)) defaults.

(** [stop] *)
Definition stop (p : t) : t :=
  match p.(worker) with
  | Some _ => mk p.(cfg) None p.(out_q) p.(status_lbl) p.(_last_ok)
                 p.(_last_latency) p.(spark)
  | None => p
  end.

(** [_apply_result], without the icon and the detail line.  The callback
    [on_update] that ends it is [App._on_panel_update]. *)
Definition _apply_result (p : t) (data : ProbeDict) : t :=
  let ok := data.(d_ok) in
  let latency := data.(d_latency) in
  let text := (if ok then "ONLINE" else "OFFLINE")%string in
  mk p.(cfg) p.(worker) p.(out_q) text (Some ok)
     (Py.or_else latency 1000000000000)
     (Sparkline.push p.(spark) latency ok).

(** [_poll_results]: the queue is drained in order. *)
Definition _poll_results (p : t) : t :=
  let p' := fold_left _apply_result p.(out_q) p in
  mk p'.(cfg) p'.(worker) [] p'.(status_lbl) p'.(_last_ok)
     p'.(_last_latency) p'.(spark).

Definition get_cfg (p : t) : MonitorConfig := p.(cfg).

(** [bool(self._last_ok)] *)
Definition last_ok (p : t) : bool :=
  match p.(_last_ok) with
  | Some b => b
  | None => false
  end.

Definition last_latency (p : t) : Q := p.(_last_latency).

(** One pass of the panel's worker: the thread reads the panel's [cfg]
    object as it is now. *)
Definition worker_cycle (p : t) (stop_is_set : bool) (net : connect_behaviour)
           (ts elapsed : Q) (stop_in_wait : bool) : MonitorThread.cycle :=
  MonitorThread.mkCycle stop_is_set p.(cfg) net ts elapsed stop_in_wait.

End HostPanel.

(* ------------------------------------------------------------------ *)
(** * Application: the panel list and its ordering *)

Module App.

Record t : Type := mk {
  panels : list HostPanel.t;
  default_interval : Q;
  default_timeout : Q;
  sort_by : string;
  auto_sort_var : bool
}.

(** The three shapes of sort key: [(float, str)], [str] and
    [(bool, float, str)]. *)
Inductive sort_key : Type :=
| KLatency (latency : Q) (host : string)
| KHost (host : string)
| KStatus (offline : bool) (latency : Q) (host : string).

(** The function [k] that [_sort_panels] defines from [self.sort_by.get()]. *)
Definition k (key : string) (p : HostPanel.t) : sort_key :=
  if String.eqb key "latency"%string then
    KLatency (HostPanel.last_latency p) (Str.lower (HostPanel.get_cfg p).(host))
  else if String.eqb key "host"%string then
    KHost (Str.lower (HostPanel.get_cfg p).(host))
  else
    KStatus (negb (HostPanel.last_ok p)) (HostPanel.last_latency p)
            (Str.lower (HostPanel.get_cfg p).(host)).

(** [False < True] *)
Definition bool_ltb (a b : bool) : bool := negb a && b.

(** Python's [<] on keys of one shape: tuples compare at their first
    unequal component.  Keys of different shapes never meet in one sort. *)
Definition key_ltb (a b : sort_key) : bool :=
  match a, b with
  | KLatency l1 h1, KLatency l2 h2 =>
      if Qeq_bool l1 l2 then String.ltb h1 h2 else Sparkline.Qltb l1 l2
  | KHost h1, KHost h2 => String.ltb h1 h2
  | KStatus o1 l1 h1, KStatus o2 l2 h2 =>
      if Bool.eqb o1 o2 then
        if Qeq_bool l1 l2 then String.ltb h1 h2 else Sparkline.Qltb l1 l2
      else bool_ltb o1 o2
  | _, _ => false
  end.

Definition ordered (key : string) (ps : list HostPanel.t) : list HostPanel.t :=
  sorted (k key) key_ltb ps.

(** [_sort_panels]: [self.panels = sorted(self.panels, key=k)]. *)
Definition _sort_panels (a : t) : t :=
  mk (ordered a.(sort_by) a.(panels)) a.(default_interval) a.(default_timeout)
     a.(sort_by) a.(auto_sort_var).

(** [_on_panel_update] *)
Definition _on_panel_update (a : t) : t :=
  if a.(auto_sort_var) then _sort_panels a else a.

(** [_create_panel]: the panel gets the application's defaults through
    [get_defaults]. *)
Definition _create_panel (a : t) (c : MonitorConfig) : t :=
  let panel := HostPanel.init c (a.(default_interval), a.(default_timeout)) in
  mk (a.(panels) ++ [panel]) a.(default_interval) a.(default_timeout)
     a.(sort_by) a.(auto_sort_var).

Definition set_cfg_interval (v : Q) (p : HostPanel.t) : HostPanel.t :=
  let c := p.(HostPanel.cfg) in
  HostPanel.mk (mkConfig c.(host) c.(port) v c.(timeout) c.(sound_on_change))
               p.(HostPanel.worker) p.(HostPanel.out_q) p.(HostPanel.status_lbl)
               p.(HostPanel._last_ok) p.(HostPanel._last_latency)
               p.(HostPanel.spark).

(** [_set_interval], for the value the dialog returned. *)
Definition _set_interval (a : t) (val : Q) : t :=
  let d := Qmax (1 # 2) val in
  mk (map (set_cfg_interval d) a.(panels)) d a.(default_timeout)
     a.(sort_by) a.(auto_sort_var).

Definition set_cfg_timeout (v : Q) (p : HostPanel.t) : HostPanel.t :=
  let c := p.(HostPanel.cfg) in
  HostPanel.mk (mkConfig c.(host) c.(port) c.(interval) v c.(sound_on_change))
               p.(HostPanel.worker) p.(HostPanel.out_q) p.(HostPanel.status_lbl)
               p.(HostPanel._last_ok) p.(HostPanel._last_latency)
               p.(HostPanel.spark).

(** [_set_timeout], for the value the dialog returned. *)
Definition _set_timeout (a : t) (val : Q) : t :=
  let d := Qmax (1 # 2) val in
  mk (map (set_cfg_timeout d) a.(panels)) a.(default_interval) d
     a.(sort_by) a.(auto_sort_var).


(** [_add_host_from_popup]: an empty host only raises the error box. *)
Definition _add_host_from_popup (a : t) (host : string) (port : Z) : t :=
  if String.eqb host EmptyString then a
  else
    let cfg := mkConfig host (if (port =? 0)%Z then 22%Z else port)
                        a.(default_interval) a.(default_timeout) true in
    _sort_panels (_create_panel a cfg).


End App.

(* ------------------------------------------------------------------ *)
(** * Persistence: what is written to and read from [config.json]

    The file is taken at the level of the value [json.load] returns, or
    [None] when it cannot be opened or parsed.  A dict is the list of its
    items, looked up by the first match.  An [int] is unbounded, as in
    Python; a [float] is a finite binary64 value.  The floats that are not
    finite ([NaN], [Infinity], which [json.load] accepts too) are not
    represented. *)

#[warnings="-register-all"]
Inductive json : Type :=
| JNull
| JBool (b : bool)
| JInt (z : Z)
| JFloat (q : Q)
| JStr (s : string)
| JList (l : list json)
| JDict (d : list (string * json)).

Module Persist.

(** [d.get(key, default)] *)
Fixpoint get (d : list (string * json)) (key : string) (default : json) : json :=
  match d with
  | [] => default
  | (k, v) :: rest => if String.eqb k key then v else get rest key default
  end.

(** [bool(x)] *)
Definition py_bool (x : json) : bool :=
  match x with
  | JNull => false
  | JBool b => b
  | JInt z => negb (z =? 0)%Z
  | JFloat q => negb (Qeq_bool q 0)
  | JStr s => negb (String.eqb s EmptyString)
  | JList l => match l with [] => false | _ => true end
  | JDict d => match d with [] => false | _ => true end
  end.

(** The interface state that is saved beside the application's own. *)
Record ui : Type := mkUi {
  alpha : Q;
  theme_var : string;
  ultra_var : bool
}.

(** [asdict(cfg)] *)
Definition asdict (c : MonitorConfig) : json :=
  JDict [ ("host"%string, JStr c.(host));
          ("port"%string, JInt c.(port));
          ("interval"%string, JFloat c.(interval));
          ("timeout"%string, JFloat c.(timeout));
          ("sound_on_change"%string, JBool c.(sound_on_change)) ].

(** The payload of [_save_configs]. *)
Definition _save_configs (a : App.t) (u : ui) : json :=
  JDict [ ("hosts"%string,
           JList (map (fun p => asdict (HostPanel.get_cfg p)) a.(App.panels)));
          ("default_interval"%string, JFloat a.(App.default_interval));
          ("default_timeout"%string, JFloat a.(App.default_timeout));
          ("alpha"%string, JFloat u.(alpha));
          ("theme"%string, JStr u.(theme_var));
          ("sort_by"%string, JStr a.(App.sort_by));
          ("auto_sort"%string, JBool a.(App.auto_sort_var));
          ("ultra"%string, JBool u.(ultra_var)) ].

(** [d[key] = v]: an existing key keeps its place, a new one goes last. *)
Fixpoint set (d : list (string * json)) (key : string) (v : json)
  : list (string * json) :=
  match d with
  | [] => [(key, v)]
  | (k, x) :: rest =>
      if String.eqb k key then (k, v) :: rest else (k, x) :: set rest key v
  end.

(** [_persist_defaults]: the new content of the file.  The eight keys are
    set in the dict that was read, or in an empty one when the file cannot
    be read; when the file holds a value that is not a dict the first
    assignment raises and nothing is written. *)
Definition _persist_defaults (file : option json) (a : App.t) (u : ui) : option json :=
  let write data :=
    let data := set data "default_interval" (JFloat a.(App.default_interval)) in
    let data := set data "default_timeout" (JFloat a.(App.default_timeout)) in
    let data := set data "alpha" (JFloat u.(alpha)) in
    let data := set data "theme" (JStr u.(theme_var)) in
    let data := set data "sort_by" (JStr a.(App.sort_by)) in
    let data := set data "auto_sort" (JBool a.(App.auto_sort_var)) in
    let data := set data "ultra" (JBool u.(ultra_var)) in
    let data := set data "hosts"
                    (JList (map (fun p => asdict (HostPanel.get_cfg p))
                                a.(App.panels))) in
    Some (JDict data) in
  match file with
  | None => write []
  | Some (JDict d) => write d
  | Some other => Some other
  end.

(** What [_load_configs] returns: a list of configs, or a list in which
    some [host] is not a [str] (no exception inside [_load_configs]; the
    panel made from it raises in [start]). *)
Inductive loaded : Type :=
| Configs (cs : list MonitorConfig)
| HostNotStr.

(** One entry of ["hosts"]: a config, a config whose host is not a [str],
    or an exception. *)
Inductive entry : Type :=
| EntryOk (c : MonitorConfig)
| EntryHostNotStr
| EntryRaises.

(** [float(z)] of an [int]: the nearest binary64 value, ties to even;
    [None] is the OverflowError of an [int] that rounds beyond the largest
    finite float. *)
Definition float_of_int (z : Z) : option Q :=
  match SpecFloat.binary_normalize 53 1024 z 0 false with
  | S754_zero _ => Some 0
  | S754_finite s m e =>
      let v := inject_Z (Zpos m) * Qpower 2 e in
      Some (Qred (if s then - v else v))
  | _ => None
  end.

Section Conversions.

(** Python's parsers of numbers in strings, and [str] of a value that is
    not a string, are taken as given: [None] is their ValueError, and
    [float_of_str] gives the finite float a string denotes (a string that
    denotes a float that is not finite is, like such a float in the file,
    not represented). *)
Variable int_of_str : string -> option Z.
Variable float_of_str : string -> option Q.
Variable str_of_other : json -> string.

(** [int(x)]; [None] is an exception. *)
Definition py_int (x : json) : option Z :=
  match x with
  | JBool b => Some (if b then 1 else 0)%Z
  | JInt z => Some z
  | JFloat q => Some (Sparkline.py_int q)
  | JStr s => int_of_str s
  | _ => None
  end.

(** [float(x)]; [None] is an exception. *)
Definition py_float (x : json) : option Q :=
  match x with
  | JBool b => Some (if b then 1 else 0)
  | JInt z => float_of_int z
  | JFloat q => Some q
  | JStr s => float_of_str s
  | _ => None
  end.

(** [str(x)] *)
Definition py_str (x : json) : string :=
  match x with
  | JStr s => s
  | other => str_of_other other
  end.

(** The [MonitorConfig(...)] call of [_load_configs] on one entry; an
    entry that is not a dict has no [get]. *)
Definition load_entry (it : json) : entry :=
  match it with
  | JDict d =>
      match py_int (get d "port" (JInt 22)),
            py_float (get d "interval" (JFloat 2)),
            py_float (get d "timeout" (JFloat 2)) with
      | Some prt, Some i, Some t =>
          match get d "host" (JStr "example.com") with
          | JStr h =>
              EntryOk (mkConfig h prt i t
                                (py_bool (get d "sound_on_change" (JBool true))))
          | _ => EntryHostNotStr
          end
      | _, _, _ => EntryRaises
      end
  | _ => EntryRaises
  end.

Fixpoint collect (es : list entry) : option (list MonitorConfig) :=
  match es with
  | [] => Some []
  | EntryOk c :: rest => option_map (cons c) (collect rest)
  | _ :: rest => None
  end.

(** [_load_configs]: any exception gives the empty list.  A value of
    ["hosts"] that is not a list gives it too: iterating a dict or a string
    yields strings, which have no [get], and the rest cannot be iterated or
    is empty. *)
Definition _load_configs (file : option json) : loaded :=
  match file with
  | Some (JDict raw) =>
      match get raw "hosts" (JList []) with
      | JList items =>
          let es := map load_entry items in
          if existsb (fun e => match e with EntryRaises => true | _ => false end) es
          then Configs []
          else match collect es with
               | Some cs => Configs cs
               | None => HostNotStr
               end
      | _ => Configs []
      end
  | _ => Configs []
  end.

(** [_load_defaults], without setting the window's opacity: the alpha is
    converted first, inside the same [try]. *)
Definition _load_defaults (file : option json) : Q * Q :=
  match file with
  | Some (JDict raw) =>
      match py_float (get raw "alpha" (JFloat 1)),
            py_float (get raw "default_interval" (JFloat 2)),
            py_float (get raw "default_timeout" (JFloat 2)) with
      | Some _, Some i, Some t => (i, t)
      | _, _, _ => (2, 2)
      end
  | _ => (2, 2)
  end.

(** [_load_sort] *)
Definition _load_sort (file : option json) : string :=
  match file with
  | Some (JDict raw) => py_str (get raw "sort_by" (JStr "status"))
  | _ => "status"%string
  end.

(** [_load_autosort] *)
Definition _load_autosort (file : option json) : bool :=
  match file with
  | Some (JDict raw) => py_bool (get raw "auto_sort" (JBool true))
  | _ => true
  end.

(** [_load_ultra] *)
Definition _load_ultra (file : option json) : bool :=
  match file with
  | Some (JDict raw) => py_bool (get raw "ultra" (JBool false))
  | _ => false
  end.

(** [_load_theme] *)
Definition _load_theme (file : option json) : string :=
  match file with
  | Some (JDict raw) =>
      if String.prefix "light" (Str.lower (py_str (get raw "theme" (JStr "dark"))))
      then "light"%string else "dark"%string
  | _ => "dark"%string
  end.

(** The part of [App.__init__] that builds the panel list: the loaded
    configs, or the one config of the command line when there are none;
    a panel per config; the initial sort.  [None] is the exception of a
    host that is not a [str]. *)
Definition app_init (cli : MonitorConfig) (file : option json) : option App.t :=
  let '(d_interval, d_timeout) := _load_defaults file in
  let empty := App.mk [] d_interval d_timeout (_load_sort file)
                      (_load_autosort file) in
  match _load_configs file with
  | Configs cs =>
      let configs := match cs with [] => [cli] | _ => cs end in
      Some (App._sort_panels (fold_left App._create_panel configs empty))
  | HostNotStr => None
  end.

End Conversions.

End Persist.

(* ------------------------------------------------------------------ *)
(** * The specification's wording of two derived quantities *)

Module Spec.

(** "index = max(0, ceil(0.95 * count) - 1)" *)
Definition p95_index (count : Z) : Z :=
  Z.max 0 (Qceiling ((95 # 100) * inject_Z count) - 1).

(** "the sorted-ascending sample at index ..., 20 ms when no successful
    samples exist" *)
Definition p95_latency (pts : list (Q * bool)) : option Q :=
  match Sparkline.ok_vals pts with
  | [] => Some 20
  | l => nth_error (sorted (fun x => x) Sparkline.Qltb l)
                   (Z.to_nat (p95_index (Z.of_nat (List.length l))))
  end.

(** "streak 1 wait 2s, streak 2 wait 4s, streak 3 wait 8s, streak 4 wait
    16s, streak 5 wait 30s, stays at 30s thereafter" *)
Definition refused_wait (streak : Z) : Q :=
  if (streak <=? 1)%Z then 2
  else if (streak =? 2)%Z then 4
  else if (streak =? 3)%Z then 8
  else if (streak =? 4)%Z then 16
  else 30.

(** "the sentinel +oo": a latency that no latency exceeds. *)
Definition is_plus_infinity (x : Q) : Prop := forall y : Q, y <= x.

End Spec.

(* ------------------------------------------------------------------ *)
(** * Three-way comparisons behind Python's [<] on keys *)

(** What a three-way comparison must satisfy to order keys: swapping the
    arguments flips the answer, keys that compare equal compare alike with
    every third key, and [Lt] is transitive. *)
Record order_laws {T : Type} (c : T -> T -> comparison) : Prop := mkLaws {
  law_opp : forall a b, c a b = CompOpp (c b a);
  law_eq : forall a b, c a b = Eq -> forall d, c a d = c b d;
  law_lt : forall a b d, c a b = Lt -> c b d = Lt -> c a d = Lt
}.

Arguments law_opp {T c} _ a b.
Arguments law_eq {T c} _ a b _ d.
Arguments law_lt {T c} _ a b d _ _.

(** Tuples compare at their first unequal component. *)
Definition lex_cmp {A B : Type} (ca : A -> A -> comparison)
           (cb : B -> B -> comparison) (x y : A * B) : comparison :=
  match ca (fst x) (fst y) with
  | Eq => cb (snd x) (snd y)
  | r => r
  end.

Definition bool_cmp (a b : bool) : comparison :=
  match a, b with
  | false, true => Lt
  | true, false => Gt
  | _, _ => Eq
  end.

(** The comparison of two panels that the key of a sort mode induces. *)
Definition panel_cmp (key : string) (p q : HostPanel.t) : comparison :=
  let lo x := Str.lower (HostPanel.get_cfg x).(host) in
  if String.eqb key "latency"%string then
    lex_cmp Qcompare String.compare
            (HostPanel.last_latency p, lo p) (HostPanel.last_latency q, lo q)
  else if String.eqb key "host"%string then
    String.compare (lo p) (lo q)
  else
    lex_cmp bool_cmp (lex_cmp Qcompare String.compare)
            (negb (HostPanel.last_ok p), (HostPanel.last_latency p, lo p))
            (negb (HostPanel.last_ok q), (HostPanel.last_latency q, lo q)).

(** [p] is not after [q]: Python's [not (k(q) < k(p))]. *)
Definition panel_le (key : string) (p q : HostPanel.t) : Prop :=
  App.key_ltb (App.k key q) (App.k key p) = false.

(** [p] and [q] tie: neither key is [<] the other, so that the sort has
    nothing but their previous positions to place them by. *)
Definition panel_tie (key : string) (p q : HostPanel.t) : bool :=
  negb (App.key_ltb (App.k key p) (App.k key q)) &&
  negb (App.key_ltb (App.k key q) (App.k key p)).

(* ------------------------------------------------------------------ *)
(** * Environments used in the statements *)

(** A pass during which no stop signal is seen and no exception escapes:
    the probe returns and the wait is accepted. *)
Definition quiet (c : MonitorThread.cycle) : Prop :=
  MonitorThread.stop_is_set c = false /\ MonitorThread.stop_in_wait c = false /\
  MonitorThread.setup c = SetupOk /\ MonitorThread.wait_raises c = None.

(** A pass in which an exception escapes [run]: from the two lines of
    [tcp_ping] before its [try], or from [self._stop.wait]. *)
Definition escaping (c : MonitorThread.cycle) : Prop :=
  (exists msg, MonitorThread.setup c = SetupRaises msg) \/
  (exists msg, MonitorThread.wait_raises c = Some msg).

(** A pass whose connection attempt fails. *)
Definition refused (c : MonitorThread.cycle) : Prop :=
  exists msg, MonitorThread.net c = Raises msg.

(** The results of the pass in which an exception escapes [run]: none when
    it escapes [tcp_ping], the probe's result when it escapes the wait. *)
Definition escaping_out (c : MonitorThread.cycle) : list ProbeDict :=
  match MonitorThread.setup c with
  | SetupRaises _ => []
  | SetupOk => [MonitorThread.emit c]
  end.

(** A pass that sees the stop signal, at the loop test or in the wait. *)
Definition signalled (c : MonitorThread.cycle) : Prop :=
  MonitorThread.stop_is_set c = true \/ MonitorThread.stop_in_wait c = true.

(** A sample as [push] stores it: [(latency_ms or 0.0, bool(ok))]. *)
Definition as_point (x : option Q * bool) : Q * bool :=
  (Py.or_else (fst x) 0, snd x).

(** A sequence of pushes, oldest first. *)
Definition push_all (s : Sparkline.t) (samples : list (option Q * bool)) : Sparkline.t :=
  fold_left (fun s x => Sparkline.push s (fst x) (snd x)) samples s.

(** What [tcp_ping] promises about a result: a latency is present exactly
    when [ok] holds. *)
Definition prober_contract (data : ProbeDict) : Prop :=
  d_ok data = true <-> exists l, d_latency data = Some l.

(** The scenario host of the specification: 10.0.0.1:22, interval and
    timeout 2.0 s. *)
Definition scenario_cfg : MonitorConfig :=
  mkConfig "10.0.0.1" 22 2 2 true.

(** A pass on the scenario host whose connection is refused after
    [elapsed] seconds, with no stop signal. *)
Definition refused_pass (elapsed : Q) : MonitorThread.cycle :=
  MonitorThread.mkCycle false scenario_cfg (Raises "Connection refused") 0
                        elapsed false.

(** A pass on the scenario host during whose wait the stop signal comes. *)
Definition stopping_pass (net : connect_behaviour) : MonitorThread.cycle :=
  MonitorThread.mkCycle false scenario_cfg net 0 0 true.

(** The scenario host after Set Timeout was given a value beyond the
    platform's time range, here [2.0**1000] (about 1e301): [_set_timeout]
    stores [max(0.5, 2.0**1000)] in the config, and [s.settimeout] of it
    raises OverflowError on the line before the [try] of [tcp_ping]. *)
Definition huge_timeout_cfg : MonitorConfig :=
  mkConfig "example.com" 22 2 (Qmax (1 # 2) (inject_Z (2 ^ 1000))) true.

Definition overflow_pass : MonitorThread.cycle :=
  MonitorThread.mkPass false huge_timeout_cfg (SetupRaises "OverflowError")
                       (Raises "Connection refused") 0 0 None false.

(** Two panels for one server, its ssh and its http port. *)
Definition ssh_panel : HostPanel.t :=
  HostPanel.init (mkConfig "example.com" 22 2 2 true) (2, 2).

Definition http_panel : HostPanel.t :=
  HostPanel.init (mkConfig "example.com" 80 2 2 true) (2, 2).

(** Two hosts configured with intervals of 1 s and 5 s, created in an
    application whose default interval and timeout are 2 s. *)
Definition fast_cfg : MonitorConfig := mkConfig "a.example" 22 1 2 true.

Definition slow_cfg : MonitorConfig := mkConfig "b.example" 22 5 2 true.

Definition two_host_app : App.t :=
  App._create_panel
    (App._create_panel (App.mk [] 2 2 "status" true) fast_cfg) slow_cfg.

(** A [config.json] as a user may have left it: two hosts, not in the
    order of their names, the default interval written as an integer, and
    the host sort mode. *)
Definition saved_file : json :=
  JDict [ ("hosts"%string, JList [Persist.asdict slow_cfg; Persist.asdict fast_cfg]);
          ("default_interval"%string, JInt 5);
          ("default_timeout"%string, JFloat 3);
          ("sort_by"%string, JStr "host") ].

(** The waits of a panel's worker over passes that all succeed at once,
    with no stop signal. *)
Definition worker_waits (p : HostPanel.t) (passes : nat) : list Q :=
  MonitorThread.waits
    (MonitorThread.run 0
       (repeat (HostPanel.worker_cycle p false (Connects 1) 0 0 false) passes)).

(** A config whose host is blank. *)
Definition blank_cfg : MonitorConfig :=
  mkConfig (String " " (String "009" " ")) 22 2 2 true.

(** The three hosts of the specification's ordering scenario: online at
    50 ms, online at 10 ms, offline. *)
Definition scenario_panels : list HostPanel.t :=
  [ HostPanel._apply_result
      (HostPanel.init (mkConfig "alpha" 22 2 2 true) (2, 2))
      (mkDict 0 true (Some 50) None "alpha" 22);
    HostPanel._apply_result
      (HostPanel.init (mkConfig "bravo" 22 2 2 true) (2, 2))
      (mkDict 0 true (Some 10) None "bravo" 22);
    HostPanel._apply_result
      (HostPanel.init (mkConfig "Charlie" 22 2 2 true) (2, 2))
      (mkDict 0 false None (Some "timed out"%string) "Charlie" 22) ].

(** The number of failures at the front of a list of outcomes, and at its
    end. *)
Fixpoint leading_failures (outcomes : list bool) : Z :=
  match outcomes with
  | false :: rest => (1 + leading_failures rest)%Z
  | _ => 0%Z
  end.

Definition trailing_failures (outcomes : list bool) : Z :=
  leading_failures (rev outcomes).

(** The outcomes of the probes of a list of passes. *)
Definition outcomes_of (cs : list MonitorThread.cycle) : list bool :=
  map (fun c => d_ok (MonitorThread.emit c)) cs.

(** The worker's [out_q.put]: items arrive at the end of the panel's
    queue. *)
Definition deliver (p : HostPanel.t) (items : list ProbeDict) : HostPanel.t :=
  HostPanel.mk p.(HostPanel.cfg) p.(HostPanel.worker)
               (p.(HostPanel.out_q) ++ items) p.(HostPanel.status_lbl)
               p.(HostPanel._last_ok) p.(HostPanel._last_latency)
               p.(HostPanel.spark).

(** The panel with another content of its queue. *)
Definition with_queue (p : HostPanel.t) (q : list ProbeDict) : HostPanel.t :=
  HostPanel.mk p.(HostPanel.cfg) p.(HostPanel.worker) q p.(HostPanel.status_lbl)
               p.(HostPanel._last_ok) p.(HostPanel._last_latency)
               p.(HostPanel.spark).

(** The sample that [_apply_result] pushes for a queue item. *)
Definition sample_of (d : ProbeDict) : option Q * bool := (d_latency d, d_ok d).



(** What can happen to a panel after it was made: its methods, and a
    delivery by its worker. *)
Inductive panel_op : Type :=
| OpStart (defaults : Q * Q)
| OpStop
| OpDeliver (items : list ProbeDict)
| OpPoll
| OpApply (data : ProbeDict).

Definition apply_op (p : HostPanel.t) (op : panel_op) : HostPanel.t :=
  match op with
  | OpStart d => HostPanel.start p d
  | OpStop => HostPanel.stop p
  | OpDeliver items => deliver p items
  | OpPoll => HostPanel._poll_results p
  | OpApply data => HostPanel._apply_result p data
  end.

(** The window and the last state tell the same story: no point and no
    last outcome, or a newest point with the last outcome. *)
Definition window_matches_state (p : HostPanel.t) : Prop :=
  match HostPanel._last_ok p with
  | None => Sparkline.points (HostPanel.spark p) = []
  | Some b => exists older lat,
                Sparkline.points (HostPanel.spark p) = older ++ [(lat, b)]
  end.

(** What a panel keeps true of its window. *)
Definition panel_invariant (p : HostPanel.t) : Prop :=
  Sparkline.max_points (HostPanel.spark p) = 100%Z /\
  (Z.of_nat (List.length (Sparkline.points (HostPanel.spark p))) <= 100)%Z /\
  window_matches_state p.

(** How many of the successful latencies exceed [v]. *)
Definition count_above (v : Q) (vals : list Q) : nat :=
  List.length (filter (fun x => Sparkline.Qltb v x) vals).

(* ================================================================== *)
(** * Properties of the worker loop *)

Section Backoff.

Import MonitorThread.

Local Open Scope Q_scope.

Lemma pow2_pos (f : Z) : (0 <= f)%Z -> (0 < 2 ^ f)%Z.
Proof. intros; apply Z.pow_pos_nonneg; lia. Qed.

Lemma inject_pow2_le (f g : Z) :
  (0 <= f <= g)%Z -> inject_Z (2 ^ f) <= inject_Z (2 ^ g).
Proof.
  intros H. rewrite <- Zle_Qle. apply Z.pow_le_mono_r; lia.
Qed.

Lemma scaled_le (base : Q) (f g : Z) :
  0 <= base -> (0 <= f <= g)%Z ->
  base * inject_Z (2 ^ f) <= base * inject_Z (2 ^ g).
Proof.
  intros Hb H.
  rewrite (Qmult_comm base), (Qmult_comm base).
  apply Qmult_le_compat_r; [apply inject_pow2_le; exact H | exact Hb].
Qed.

Lemma backoff_pos_streak (base : Q) (f : Z) :
  (1 <= f)%Z -> backoff base f = Qmin 30 (base * inject_Z (2 ^ f)).
Proof.
  intros H. unfold backoff, _max_backoff.
  destruct (f >? 0)%Z eqn:E; [reflexivity | lia].
Qed.

Lemma backoff_zero_streak (base : Q) : backoff base 0 = base.
Proof. reflexivity. Qed.

Lemma backoff_mono_pos (base : Q) (f : Z) :
  0 <= base -> (1 <= f)%Z -> backoff base f <= backoff base (f + 1).
Proof.
  intros Hb Hf.
  rewrite !backoff_pos_streak by lia.
  apply Q.min_le_compat_l. apply scaled_le; [exact Hb | lia].
Qed.

Lemma backoff_first_step (base : Q) :
  0 <= base -> base <= 30 -> backoff base 0 <= backoff base 1.
Proof.
  intros Hb Hc. rewrite backoff_zero_streak, backoff_pos_streak by lia.
  apply Q.min_glb; [exact Hc |].
  change (2 ^ 1)%Z with 2%Z.
  setoid_replace base with (base * 1) at 1 by ring.
  rewrite (Qmult_comm base 1), (Qmult_comm base).
  apply Qmult_le_compat_r; [discriminate | exact Hb].
Qed.

Lemma wait_nonneg (base : Q) (f : Z) (e : Q) : 0 <= wait base f e.
Proof. unfold wait. apply Q.le_max_l. Qed.

Lemma wait_when_fast (base : Q) (f : Z) (e : Q) :
  e <= backoff base f -> wait base f e == backoff base f - e.
Proof.
  intros H. unfold wait. apply Q.max_r.
  setoid_replace 0 with (e - e) by ring.
  apply Qplus_le_compat; [exact H | apply Qle_refl].
Qed.

Lemma wait_when_slow (base : Q) (f : Z) (e : Q) :
  backoff base f <= e -> wait base f e == 0.
Proof.
  intros H. unfold wait. apply Q.max_l.
  setoid_replace 0 with (e - e) by ring.
  apply Qplus_le_compat; [exact H | apply Qle_refl].
Qed.

(** C1, amended.  For a base interval of at least 0.5 s (what [start] and
    [_set_interval] enforce) and every streak [f >= 0]: the backoff is the
    base at streak 0 and [min(30, base * 2^f)] from streak 1 on, where it
    never exceeds 30; the wait is the backoff less the elapsed probe time,
    floored at 0; the backoff does not decrease from one streak to the next
    from streak 1 on, and from streak 0 on when the base is at most 30. *)
Theorem backoff_wait_formula (base elapsed : Q) (f : Z) :
  (1 # 2) <= base -> (0 <= f)%Z ->
  backoff base 0 = base /\
  ((1 <= f)%Z -> backoff base f = Qmin 30 (base * inject_Z (2 ^ f))
                 /\ backoff base f <= 30) /\
  0 <= wait base f elapsed /\
  (elapsed <= backoff base f -> wait base f elapsed == backoff base f - elapsed) /\
  (backoff base f <= elapsed -> wait base f elapsed == 0) /\
  ((1 <= f)%Z -> backoff base f <= backoff base (f + 1)) /\
  (base <= 30 -> backoff base f <= backoff base (f + 1)).
Proof.
  intros Hb Hf.
  assert (Hb0 : 0 <= base) by (eapply Qle_trans; [| exact Hb]; discriminate).
  split; [reflexivity |].
  split.
  { intros H1. split; [apply backoff_pos_streak; exact H1 |].
    rewrite backoff_pos_streak by exact H1. apply Q.le_min_l. }
  split; [apply wait_nonneg |].
  split; [apply wait_when_fast |].
  split; [apply wait_when_slow |].
  split; [apply backoff_mono_pos; assumption |].
  intros Hc.
  destruct (Z.eq_dec f 0) as [-> | Hne].
  - apply backoff_first_step; assumption.
  - apply backoff_mono_pos; [assumption | lia].
Qed.

Lemma backoff_wait_formula_witness :
  (1 # 2) <= 2 /\ (0 <= 3)%Z /\
  (backoff 2 0 = 2 /\
   ((1 <= 3)%Z -> backoff 2 3 = Qmin 30 (2 * inject_Z (2 ^ 3))
                  /\ backoff 2 3 <= 30) /\
   0 <= wait 2 3 (1 # 100) /\
   ((1 # 100) <= backoff 2 3 -> wait 2 3 (1 # 100) == backoff 2 3 - (1 # 100)) /\
   (backoff 2 3 <= (1 # 100) -> wait 2 3 (1 # 100) == 0) /\
   ((1 <= 3)%Z -> backoff 2 3 <= backoff 2 (3 + 1)) /\
   (2 <= 30 -> backoff 2 3 <= backoff 2 (3 + 1))).
Proof.
  split; [discriminate |].
  split; [lia |].
  apply (backoff_wait_formula 2 (1 # 100) 3); [discriminate | lia].
Defined.

(** C1 as stated fails for a base interval above the cap: with a 60 s
    interval the wait is 60 s at streak 0 and drops to 30 s at streak 1. *)
Lemma backoff_decreases_above_cap :
  (1 # 2) <= 60 /\ backoff 60 0 == 60 /\ backoff 60 1 == 30 /\
  ~ backoff 60 0 <= backoff 60 (0 + 1).
Proof.
  split; [discriminate |].
  split; [reflexivity |].
  split; [reflexivity |].
  intros H. vm_compute in H. apply H. reflexivity.
Qed.

End Backoff.

Section RunSteps.

Import MonitorThread.

(** One pass of the loop, by what it meets. *)
Lemma run_cons (f : Z) (c : cycle) (rest : list cycle) :
  run f (c :: rest) =
  if stop_is_set c then mkTrace [] [] f true None
  else
    match setup c with
    | SetupRaises msg => mkTrace [] [] f true (Some msg)
    | SetupOk =>
        let g := update_failures (d_ok (emit c)) f in
        let w := wait (interval (cfg_now c)) g (elapsed c) in
        match wait_raises c with
        | Some msg => mkTrace [emit c] [w] g true (Some msg)
        | None =>
            if stop_in_wait c then mkTrace [emit c] [w] g true None
            else
              let t := run g rest in
              mkTrace (emit c :: out_q t) (w :: waits t) (failures_end t)
                      (stopped t) (raised t)
        end
    end.
Proof.
  simpl. unfold tcp_ping. destruct (stop_is_set c), (setup c); reflexivity.
Qed.

(** A pass that sees no stop signal and lets no exception escape. *)
Lemma run_cons_quiet (f : Z) (c : cycle) (rest : list cycle) :
  quiet c ->
  run f (c :: rest) =
  let g := update_failures (d_ok (emit c)) f in
  let t := run g rest in
  mkTrace (emit c :: out_q t) (wait (interval (cfg_now c)) g (elapsed c) :: waits t)
          (failures_end t) (stopped t) (raised t).
Proof.
  intros (H1 & H2 & H3 & H4). rewrite run_cons, H1, H2, H3, H4. reflexivity.
Qed.

End RunSteps.

Section Streak.

Import MonitorThread.

Lemma update_failures_range (ok : bool) (f : Z) :
  (0 <= f <= 10)%Z -> (0 <= update_failures ok f <= 10)%Z.
Proof. intros H. unfold update_failures. destruct ok; lia. Qed.

Lemma fold_update_range (outcomes : list bool) :
  forall f, (0 <= f <= 10)%Z ->
  (0 <= fold_left (fun f ok => update_failures ok f) outcomes f <= 10)%Z.
Proof.
  induction outcomes as [| ok outcomes IH]; intros f Hf; simpl.
  - exact Hf.
  - apply IH. apply update_failures_range. exact Hf.
Qed.

Lemma run_failures_range (cs : list cycle) :
  forall f, (0 <= f <= 10)%Z -> (0 <= failures_end (run f cs) <= 10)%Z.
Proof.
  induction cs as [| c cs IH]; intros f Hf.
  - exact Hf.
  - rewrite run_cons.
    destruct (stop_is_set c); simpl; [exact Hf |].
    destruct (setup c); simpl; [| exact Hf].
    destruct (wait_raises c); simpl;
      [apply update_failures_range; exact Hf |].
    destruct (stop_in_wait c); simpl.
    + apply update_failures_range. exact Hf.
    + apply IH. apply update_failures_range. exact Hf.
Qed.

(** C2.  From [_failures = 0] the streak stays within 0..10 after any
    sequence of probe outcomes, both as the fold of the update and as the
    counter of the running loop; a successful probe sets it to 0 whatever it
    was, so it is 0 after any sequence that ends in a success. *)
Theorem streak_capped_and_reset :
  forall (outcomes : list bool) (cs : list cycle) (prior : Z),
    (0 <= streak_after outcomes <= 10)%Z /\
    (0 <= failures_end (run 0 cs) <= 10)%Z /\
    update_failures true prior = 0%Z /\
    streak_after (outcomes ++ [true]) = 0%Z /\
    (forall cfg latency t e w,
        failures_end (run prior [mkCycle false cfg (Connects latency) t e w]) = 0%Z).
Proof.
  intros outcomes cs prior.
  split; [apply fold_update_range; lia |].
  split; [apply run_failures_range; lia |].
  split; [reflexivity |].
  split.
  - unfold streak_after. rewrite fold_left_app. reflexivity.
  - intros cfg latency t e w. simpl. destruct w; reflexivity.
Qed.

End Streak.

Section Loop.

Import MonitorThread.

Lemma run_quiet (cs : list cycle) :
  forall f, Forall quiet cs ->
  stopped (run f cs) = false /\
  List.length (out_q (run f cs)) = List.length cs /\
  out_q (run f cs) = map emit cs.
Proof.
  induction cs as [| c cs IH]; intros f H.
  - repeat split.
  - inversion H as [| c' cs' Hc Hcs]; subst.
    rewrite (run_cons_quiet f c cs Hc); simpl.
    destruct (IH (update_failures (d_ok (emit c)) f) Hcs) as (IH1 & IH2 & IH3).
    repeat split; [exact IH1 | f_equal; exact IH2 | f_equal; exact IH3].
Qed.

Lemma run_stopped_cause (cs : list cycle) :
  forall f, stopped (run f cs) = true ->
  Exists signalled cs \/ Exists escaping cs.
Proof.
  induction cs as [| c cs IH]; intros f H.
  - discriminate.
  - rewrite run_cons in H.
    destruct (stop_is_set c) eqn:E1.
    { left. apply Exists_cons_hd. left. exact E1. }
    destruct (setup c) as [| msg] eqn:E2.
    2:{ right. apply Exists_cons_hd. left. exists msg. exact E2. }
    destruct (wait_raises c) as [msg |] eqn:E3.
    { right. apply Exists_cons_hd. right. exists msg. exact E3. }
    destruct (stop_in_wait c) eqn:E4.
    { left. apply Exists_cons_hd. right. exact E4. }
    simpl in H. destruct (IH _ H) as [S | S].
    + left. apply Exists_cons_tl. exact S.
    + right. apply Exists_cons_tl. exact S.
Qed.

Lemma run_raised_stopped (cs : list cycle) :
  forall f msg, raised (run f cs) = Some msg -> stopped (run f cs) = true.
Proof.
  induction cs as [| c cs IH]; intros f msg H.
  - discriminate.
  - rewrite run_cons in H |- *.
    destruct (stop_is_set c); [reflexivity |].
    destruct (setup c); [| reflexivity].
    destruct (wait_raises c); [reflexivity |].
    destruct (stop_in_wait c); [reflexivity |].
    simpl in H |- *. eapply IH. exact H.
Qed.

Lemma run_stop_in_wait (cs : list cycle) :
  forall f c rest, Forall quiet cs ->
  stop_is_set c = false -> setup c = SetupOk -> wait_raises c = None ->
  stop_in_wait c = true ->
  stopped (run f (cs ++ c :: rest)) = true /\
  raised (run f (cs ++ c :: rest)) = None /\
  out_q (run f (cs ++ c :: rest)) = out_q (run f cs) ++ [emit c].
Proof.
  induction cs as [| c0 cs IH]; intros f c rest H E1 E2 E3 E4.
  - rewrite app_nil_l, run_cons, E1, E2, E3, E4. repeat split.
  - inversion H as [| c' cs' Hc Hcs]; subst.
    rewrite <- !app_comm_cons.
    rewrite (run_cons_quiet f c0 (cs ++ c :: rest) Hc), (run_cons_quiet f c0 cs Hc).
    simpl.
    destruct (IH (update_failures (d_ok (emit c0)) f) c rest Hcs E1 E2 E3 E4)
      as (IH1 & IH2 & IH3).
    split; [exact IH1 |]. split; [exact IH2 | f_equal; exact IH3].
Qed.

Lemma run_escaping (cs : list cycle) :
  forall f c rest, Forall quiet cs ->
  stop_is_set c = false -> escaping c ->
  stopped (run f (cs ++ c :: rest)) = true /\
  (exists msg, raised (run f (cs ++ c :: rest)) = Some msg) /\
  out_q (run f (cs ++ c :: rest)) = out_q (run f cs) ++ escaping_out c.
Proof.
  induction cs as [| c0 cs IH]; intros f c rest H E1 E.
  - rewrite app_nil_l, run_cons, E1. unfold escaping_out.
    destruct (setup c) as [| m] eqn:E2.
    + destruct E as [[msg E] | [msg E]]; [congruence |].
      rewrite E. split; [reflexivity |]. split; [exists msg |]; reflexivity.
    + split; [reflexivity |]. split; [exists m |]; reflexivity.
  - inversion H as [| c' cs' Hc Hcs]; subst.
    rewrite <- !app_comm_cons.
    rewrite (run_cons_quiet f c0 (cs ++ c :: rest) Hc), (run_cons_quiet f c0 cs Hc).
    simpl.
    destruct (IH (update_failures (d_ok (emit c0)) f) c rest Hcs E1 E)
      as (IH1 & IH2 & IH3).
    split; [exact IH1 |]. split; [exact IH2 | f_equal; exact IH3].
Qed.

Lemma quiet_not_signalled (cs : list cycle) :
  Forall quiet cs -> ~ Exists signalled cs.
Proof.
  intros H E. rewrite Forall_forall in H. rewrite Exists_exists in E.
  destruct E as (c & Hin & Hs). destruct (H c Hin) as (H1 & H2 & _).
  destruct Hs as [Hs | Hs]; congruence.
Qed.

(** C8, as the code has it.  The worker does not end because a connection
    attempt failed: over passes that see no stop signal and let no exception
    escape, the loop is still running and has put one result per pass,
    whatever the probes returned; and once the stop signal is seen in the
    wait of a pass, the run returns there without another probe.  But the
    loop does not end on a stop signal only: [run] has no [try], so when the
    two lines of [tcp_ping] that precede its [try] raise, or the wait
    raises, in a pass that sees no stop signal, the thread ends there, by
    that exception, though no pass has seen a stop signal; nothing that the
    environment would have offered afterwards is probed.  A run that has
    ended has seen a stop signal or an escaping exception. *)
Theorem worker_ends_without_stop_signal :
  forall (f : Z) (cs rest : list cycle) (c : cycle),
    Forall quiet cs ->
    stop_is_set c = false -> stop_in_wait c = false -> escaping c ->
    (stopped (run f cs) = false /\
     List.length (out_q (run f cs)) = List.length cs) /\
    (stopped (run f (cs ++ c :: rest)) = true /\
     (exists msg, raised (run f (cs ++ c :: rest)) = Some msg) /\
     ~ Exists signalled (cs ++ [c]) /\
     out_q (run f (cs ++ c :: rest)) = map emit cs ++ escaping_out c) /\
    (forall g cs', stopped (run g cs') = true ->
                   Exists signalled cs' \/ Exists escaping cs') /\
    (forall c', stop_is_set c' = false -> setup c' = SetupOk ->
                wait_raises c' = None -> stop_in_wait c' = true ->
                stopped (run f (cs ++ c' :: rest)) = true /\
                raised (run f (cs ++ c' :: rest)) = None /\
                out_q (run f (cs ++ c' :: rest)) = map emit cs ++ [emit c']).
Proof.
  intros f cs rest c Hq E1 E2 E.
  destruct (run_quiet cs f Hq) as (Q1 & Q2 & Q3).
  destruct (run_escaping cs f c rest Hq E1 E) as (S1 & S2 & S3).
  split; [split; assumption |].
  split.
  - split; [exact S1 |]. split; [exact S2 |].
    split; [| rewrite S3, Q3; reflexivity].
    intros X. apply Exists_app in X. destruct X as [X | X].
    + exact (quiet_not_signalled cs Hq X).
    + inversion X as [? ? [Hs | Hs] | ? ? Hs]; subst;
        [congruence | congruence | inversion Hs].
  - split; [intros g cs'; apply run_stopped_cause |].
    intros c' F1 F2 F3 F4.
    destruct (run_stop_in_wait cs f c' rest Hq F1 F2 F3 F4) as (T1 & T2 & T3).
    split; [exact T1 |]. split; [exact T2 |].
    rewrite T3, Q3. reflexivity.
Qed.

Lemma worker_ends_without_stop_signal_witness :
  let cs := [refused_pass 0; refused_pass 0] in
  let c := overflow_pass in
  let rest := [refused_pass 0] in
  Forall quiet cs /\ stop_is_set c = false /\ stop_in_wait c = false /\
  escaping c /\
  stopped (run 0 cs) = false /\
  stopped (run 0 (cs ++ c :: rest)) = true /\
  (exists msg, raised (run 0 (cs ++ c :: rest)) = Some msg) /\
  ~ Exists signalled (cs ++ [c]) /\
  List.length (out_q (run 0 (cs ++ c :: rest))) = 2%nat.
Proof.
  intros cs c rest.
  assert (Hq : Forall quiet cs) by (repeat constructor).
  assert (He : escaping c) by (left; exists "OverflowError"%string; reflexivity).
  destruct (worker_ends_without_stop_signal 0 cs rest c Hq eq_refl eq_refl He)
    as ((W1 & _) & (W2 & W3 & W4 & W5) & _).
  split; [exact Hq |]. split; [reflexivity |]. split; [reflexivity |].
  split; [exact He |]. split; [exact W1 |]. split; [exact W2 |].
  split; [exact W3 |]. split; [exact W4 |].
  rewrite W5. reflexivity.
Defined.

End Loop.

Section RefusedScenario.

Import MonitorThread.

Local Open Scope Q_scope.

Lemma backoff_base_eq (b b' : Q) (f : Z) :
  b == b' -> backoff b f == backoff b' f.
Proof.
  intros H. unfold backoff. destruct (f >? 0)%Z.
  - apply Q.min_compat; [reflexivity | rewrite H; reflexivity].
  - exact H.
Qed.

Lemma wait_base_eq (b b' : Q) (f : Z) (e : Q) :
  b == b' -> wait b f e == wait b' f e.
Proof.
  intros H. unfold wait.
  apply Q.max_compat; [reflexivity |].
  rewrite (backoff_base_eq _ _ f H). reflexivity.
Qed.

(** The streak reached by the [k]-th of a row of failed probes. *)
Lemma run_refused_wait (cs : list cycle) :
  forall f k c,
    Forall quiet cs -> Forall refused cs -> nth_error cs k = Some c ->
    nth_error (waits (run f cs)) k =
    Some (wait (interval (cfg_now c)) (Z.min (f + Z.of_nat k + 1) 10) (elapsed c)).
Proof.
  induction cs as [| c0 cs IH]; intros f k c Hq Hr Hk.
  - destruct k; discriminate.
  - inversion Hq as [| ? ? Hc Hq']; subst.
    inversion Hr as [| ? ? [msg Hm] Hr']; subst.
    rewrite (run_cons_quiet f c0 cs Hc). unfold emit, put. rewrite Hm. simpl.
    destruct k as [| k]; simpl in Hk |- *.
    + injection Hk as ->. do 2 f_equal; lia.
    + rewrite (IH _ k c Hq' Hr' Hk). do 2 f_equal; lia.
Qed.

Lemma backoff_2s_capped (m : Z) :
  (4 <= m <= 10)%Z -> backoff 2 m == 30.
Proof.
  intros H.
  assert (C : (m = 4 \/ m = 5 \/ m = 6 \/ m = 7 \/ m = 8 \/ m = 9 \/ m = 10)%Z) by lia.
  destruct C as [-> | [-> | [-> | [-> | [-> | [-> | ->]]]]]]; reflexivity.
Qed.

(** C3, amended.  On a host with interval 2.0 whose every probe fails, with
    no stop signal, the wait after the [k+1]-th probe (streak [k+1], as long
    as the streak is below its cap) is the floor at 0 of 4 s, 8 s, 16 s less
    the elapsed probe time at streaks 1, 2, 3, and of 30 s less the elapsed
    probe time at streak 4 and at every later probe. *)
Theorem refused_host_waits :
  forall (cs : list cycle) (k : nat) (c : cycle),
    Forall quiet cs -> Forall refused cs ->
    Forall (fun c => interval (cfg_now c) == 2) cs ->
    nth_error cs k = Some c ->
    exists w,
      nth_error (waits (run 0 cs)) k = Some w /\
      (k = 0%nat -> w == Qmax 0 (4 - elapsed c)) /\
      (k = 1%nat -> w == Qmax 0 (8 - elapsed c)) /\
      (k = 2%nat -> w == Qmax 0 (16 - elapsed c)) /\
      ((3 <= k)%nat -> w == Qmax 0 (30 - elapsed c)).
Proof.
  intros cs k c Hq Hr Hi Hk.
  assert (Hb : interval (cfg_now c) == 2).
  { rewrite Forall_forall in Hi. apply Hi. eapply nth_error_In. exact Hk. }
  eexists. split; [apply run_refused_wait; eassumption |].
  repeat split; intros E.
  - subst k. rewrite (wait_base_eq _ _ _ _ Hb). reflexivity.
  - subst k. rewrite (wait_base_eq _ _ _ _ Hb). reflexivity.
  - subst k. rewrite (wait_base_eq _ _ _ _ Hb). reflexivity.
  - rewrite (wait_base_eq _ _ _ _ Hb). unfold wait.
    apply Q.max_compat; [reflexivity |].
    rewrite backoff_2s_capped by lia. reflexivity.
Qed.

Lemma refused_host_waits_witness :
  let cs := [refused_pass 0; refused_pass (1 # 100); refused_pass 0;
             refused_pass 0; refused_pass 0] in
  Forall quiet cs /\ Forall refused cs /\
  Forall (fun c => interval (cfg_now c) == 2) cs /\
  nth_error cs 1 = Some (refused_pass (1 # 100)) /\
  exists w, nth_error (waits (run 0 cs)) 1 = Some w /\ w == 8 - (1 # 100).
Proof.
  intros cs.
  assert (Hq : Forall quiet cs) by (repeat constructor).
  assert (Hr : Forall refused cs)
    by (repeat constructor; exists "Connection refused"%string; reflexivity).
  assert (Hi : Forall (fun c => interval (cfg_now c) == 2) cs)
    by (repeat constructor; reflexivity).
  destruct (refused_host_waits cs 1 (refused_pass (1 # 100)) Hq Hr Hi eq_refl)
    as (w & W1 & _ & W3 & _).
  repeat split; try assumption.
  exists w. split; [exact W1 |].
  rewrite (W3 eq_refl). reflexivity.
Defined.

(** C3 as stated fails at the first failure already: with interval 2.0 and
    no elapsed time the waits at streaks 1..6 are 4, 8, 16, 30, 30, 30
    seconds, not 2, 4, 8, 16, 30, 30. *)
Lemma refused_host_waits_differ :
  let t := run 0 (repeat (refused_pass 0) 6) in
  map Qred (waits t) = [4; 8; 16; 30; 30; 30] /\
  map Spec.refused_wait [1; 2; 3; 4; 5; 6]%Z = [2; 4; 8; 16; 30; 30] /\
  ~ nth 0 (waits t) 0 == Spec.refused_wait 1 /\
  ~ nth 3 (waits t) 0 == Spec.refused_wait 4.
Proof.
  split; [reflexivity |].
  split; [reflexivity |].
  split; intros H; vm_compute in H; discriminate.
Qed.

End RefusedScenario.

(* ================================================================== *)
(** * Comparisons *)

Section OrderLaws.

Lemma Qcompare_laws : order_laws Qcompare.
Proof.
  constructor.
  - intros a b. symmetry. apply Qcompare_antisym.
  - intros a b H d. apply Qeq_alt in H. rewrite H. reflexivity.
  - intros a b d H1 H2. apply Qlt_alt in H1, H2. apply Qlt_alt.
    eapply Qlt_trans; eassumption.
Qed.

Lemma bool_cmp_laws : order_laws bool_cmp.
Proof.
  constructor.
  - intros [] []; reflexivity.
  - intros [] [] H []; try reflexivity; discriminate.
  - intros [] [] [] H1 H2; try reflexivity; discriminate.
Qed.

Lemma ascii_compare_lt_trans (a b c : ascii) :
  Ascii.compare a b = Lt -> Ascii.compare b c = Lt -> Ascii.compare a c = Lt.
Proof.
  unfold Ascii.compare. rewrite !N.compare_lt_iff. apply N.lt_trans.
Qed.

Lemma string_compare_lt_trans (a : string) :
  forall b c, String.compare a b = Lt -> String.compare b c = Lt ->
              String.compare a c = Lt.
Proof.
  induction a as [| x a IH]; intros [| y b] [| z c] H1 H2;
    simpl in *; try discriminate; try reflexivity.
  destruct (Ascii.compare x y) eqn:Exy; try discriminate.
  - apply Ascii.compare_eq_iff in Exy. subst y.
    destruct (Ascii.compare x z); try discriminate; [| reflexivity].
    eapply IH; eassumption.
  - destruct (Ascii.compare y z) eqn:Eyz; try discriminate.
    + apply Ascii.compare_eq_iff in Eyz. subst z. rewrite Exy. reflexivity.
    + rewrite (ascii_compare_lt_trans _ _ _ Exy Eyz). reflexivity.
Qed.

Lemma string_compare_laws : order_laws String.compare.
Proof.
  constructor.
  - apply String.compare_antisym.
  - intros a b H d. apply String.compare_eq_iff in H. subst b. reflexivity.
  - intros a b d. apply string_compare_lt_trans.
Qed.

Variables (T : Type) (c : T -> T -> comparison).
Hypothesis L : order_laws c.

Lemma law_eq_r (a b d : T) : c a b = Eq -> c d a = c d b.
Proof.
  intros H. rewrite (law_opp L d a), (law_opp L d b).
  f_equal. apply (law_eq L). exact H.
Qed.

Lemma law_refl (a : T) : c a a = Eq.
Proof.
  pose proof (law_opp L a a) as H. destruct (c a a); try reflexivity; discriminate.
Qed.

Lemma law_le_trans (a b d : T) : c a b <> Gt -> c b d <> Gt -> c a d <> Gt.
Proof.
  intros H1 H2.
  destruct (c a b) eqn:E1; [| | congruence].
  - rewrite (law_eq L _ _ E1). exact H2.
  - destruct (c b d) eqn:E2; [| | congruence].
    + rewrite <- (law_eq_r b d a E2). congruence.
    + rewrite (law_lt L _ _ _ E1 E2). discriminate.
Qed.

Lemma pull_laws (P : Type) (f : P -> T) : order_laws (fun x y => c (f x) (f y)).
Proof.
  constructor.
  - intros a b. apply (law_opp L).
  - intros a b H d. apply (law_eq L). exact H.
  - intros a b d. apply (law_lt L).
Qed.

Variables (U : Type) (c' : U -> U -> comparison).
Hypothesis L' : order_laws c'.

Lemma lex_laws : order_laws (lex_cmp c c').
Proof.
  constructor.
  - intros [a1 a2] [b1 b2]. unfold lex_cmp; simpl.
    rewrite (law_opp L a1 b1), (law_opp L' a2 b2).
    destruct (c b1 a1); reflexivity.
  - intros [a1 a2] [b1 b2]. unfold lex_cmp; simpl. intros H [d1 d2]; simpl.
    destruct (c a1 b1) eqn:E1; try discriminate.
    rewrite (law_eq L _ _ E1). rewrite (law_eq L' _ _ H). reflexivity.
  - intros [a1 a2] [b1 b2] [d1 d2]. unfold lex_cmp; simpl. intros H1 H2.
    destruct (c a1 b1) eqn:E1; try discriminate.
    + rewrite (law_eq L _ _ E1).
      destruct (c b1 d1); try discriminate; [| reflexivity].
      eapply (law_lt L'); eassumption.
    + destruct (c b1 d1) eqn:E2; try discriminate.
      * rewrite <- (law_eq_r b1 d1 a1 E2), E1. reflexivity.
      * rewrite (law_lt L _ _ _ E1 E2). reflexivity.
Qed.

End OrderLaws.

(* ================================================================== *)
(** * The stable sort *)

Section SortedFacts.

Variables (A K : Type) (k : A -> K) (ltb : K -> K -> bool).
Variable c : A -> A -> comparison.
Hypothesis L : order_laws c.
Hypothesis ltb_spec : forall x y, ltb (k x) (k y) = true <-> c x y = Lt.

(** [x] is not after [y]. *)
Let le (x y : A) : Prop := ltb (k y) (k x) = false.

Lemma not_after_iff (x y : A) : le x y <-> c x y <> Gt.
Proof.
  unfold le. rewrite <- not_true_iff_false, ltb_spec, (law_opp L y x).
  destruct (c x y); simpl; split; congruence.
Qed.

Lemma before_not_after (x y : A) : ltb (k x) (k y) = true -> le x y.
Proof.
  intros H. apply not_after_iff. apply ltb_spec in H. congruence.
Qed.

Lemma not_after_trans (x y z : A) : le x y -> le y z -> le x z.
Proof. rewrite !not_after_iff. apply (law_le_trans A c L). Qed.

Lemma not_after_total (x y : A) : le x y \/ le y x.
Proof.
  rewrite !not_after_iff, (law_opp L y x).
  destruct (c x y); simpl; [left | left | right]; congruence.
Qed.

Lemma insert_perm (x : A) (l : list A) : Permutation (x :: l) (insert k ltb x l).
Proof.
  induction l as [| y l IH]; simpl.
  - apply Permutation_refl.
  - destruct (ltb (k y) (k x)).
    + eapply perm_trans; [apply perm_swap | apply perm_skip, IH].
    + apply Permutation_refl.
Qed.

Lemma sorted_perm (l : list A) : Permutation l (sorted k ltb l).
Proof.
  induction l as [| x l IH]; simpl.
  - apply perm_nil.
  - eapply perm_trans; [apply perm_skip, IH | apply insert_perm].
Qed.

Lemma insert_sorted (x : A) (l : list A) :
  StronglySorted le l -> StronglySorted le (insert k ltb x l).
Proof.
  induction l as [| y l IH]; intros H; simpl.
  - constructor; constructor.
  - inversion H as [| y' l' Hl Hy]; subst.
    destruct (ltb (k y) (k x)) eqn:E.
    + constructor; [apply IH; exact Hl |].
      eapply Permutation_Forall; [apply insert_perm |].
      constructor; [apply before_not_after; exact E | exact Hy].
    + constructor; [exact H |].
      constructor; [exact E |].
      eapply Forall_impl; [| exact Hy].
      intros z Hz. eapply not_after_trans; [exact E | exact Hz].
Qed.

Lemma sorted_sorted (l : list A) : StronglySorted le (sorted k ltb l).
Proof.
  induction l as [| x l IH]; simpl.
  - constructor.
  - apply insert_sorted. exact IH.
Qed.

Lemma sorted_fixed (l : list A) : StronglySorted le l -> sorted k ltb l = l.
Proof.
  induction l as [| x l IH]; intros H; simpl.
  - reflexivity.
  - inversion H as [| x' l' Hl Hx]; subst.
    rewrite (IH Hl).
    destruct l as [| y l]; simpl; [reflexivity |].
    inversion Hx as [| y' l' Hxy _]; subst.
    unfold le in Hxy. rewrite Hxy. reflexivity.
Qed.

Lemma sorted_idempotent (l : list A) :
  sorted k ltb (sorted k ltb l) = sorted k ltb l.
Proof. apply sorted_fixed, sorted_sorted. Qed.

(** [x] and [y] tie: neither key is [<] the other. *)
Let tie (x y : A) : bool := negb (ltb (k x) (k y)) && negb (ltb (k y) (k x)).

Lemma tie_iff (x y : A) : tie x y = true <-> c x y = Eq.
Proof.
  unfold tie.
  rewrite andb_true_iff, !negb_true_iff, <- !not_true_iff_false, !ltb_spec.
  rewrite (law_opp L y x).
  destruct (c x y); simpl; split; try congruence.
  - intros _; split; discriminate.
  - intros [H _]. exfalso. apply H. reflexivity.
  - intros [_ H]. exfalso. apply H. reflexivity.
Qed.

(** Elements that tie are never moved past each other. *)
Lemma insert_stable (x a : A) (l : list A) :
  filter (tie x) (insert k ltb a l) = filter (tie x) (a :: l).
Proof.
  induction l as [| y l IH]; [reflexivity |].
  cbn [insert]. destruct (ltb (k y) (k a)) eqn:E; [| reflexivity].
  cbn [filter] in IH |- *. rewrite IH.
  destruct (tie x y) eqn:Ty; [| reflexivity].
  destruct (tie x a) eqn:Ta; [| reflexivity].
  exfalso. apply tie_iff in Ty, Ta. apply ltb_spec in E.
  rewrite <- (law_eq L x y Ty a) in E. congruence.
Qed.

Lemma sorted_stable (x : A) (l : list A) :
  filter (tie x) (sorted k ltb l) = filter (tie x) l.
Proof.
  induction l as [| a l IH]; [reflexivity |].
  cbn [sorted]. rewrite insert_stable. cbn [filter]. rewrite IH. reflexivity.
Qed.

End SortedFacts.

(* ================================================================== *)
(** * Ordering of the panels *)

Section Ordering.

Lemma Qeq_bool_compare (a b : Q) :
  Qeq_bool a b = match a ?= b with Eq => true | _ => false end.
Proof.
  unfold Qeq_bool, Qcompare.
  destruct (Z.eqb_spec (Qnum a * QDen b) (Qnum b * QDen a)) as [E | E].
  - rewrite E, Z.compare_refl. reflexivity.
  - destruct (Z.compare_spec (Qnum a * QDen b) (Qnum b * QDen a));
      [contradiction | reflexivity | reflexivity].
Qed.

Lemma bool_ltb_cmp (a b : bool) :
  Bool.eqb a b = match bool_cmp a b with Eq => true | _ => false end /\
  App.bool_ltb a b = match bool_cmp a b with Lt => true | _ => false end.
Proof. destruct a, b; split; reflexivity. Qed.

Lemma panel_cmp_laws (key : string) : order_laws (panel_cmp key).
Proof.
  unfold panel_cmp.
  destruct (String.eqb key "latency"); [| destruct (String.eqb key "host")].
  - apply (pull_laws _ _ (lex_laws _ _ Qcompare_laws _ _ string_compare_laws)
                     _ (fun x => (HostPanel.last_latency x,
                                  Str.lower (host (HostPanel.get_cfg x))))).
  - apply (pull_laws _ _ string_compare_laws
                     _ (fun x => Str.lower (host (HostPanel.get_cfg x)))).
  - apply (pull_laws _ _ (lex_laws _ _ bool_cmp_laws _ _
                            (lex_laws _ _ Qcompare_laws _ _ string_compare_laws))
                     _ (fun x => (negb (HostPanel.last_ok x),
                                  (HostPanel.last_latency x,
                                   Str.lower (host (HostPanel.get_cfg x)))))).
Qed.

Lemma key_ltb_spec (key : string) (p q : HostPanel.t) :
  App.key_ltb (App.k key p) (App.k key q) = true <-> panel_cmp key p q = Lt.
Proof.
  unfold App.k, panel_cmp.
  destruct (String.eqb key "latency"); [| destruct (String.eqb key "host")];
    unfold App.key_ltb, lex_cmp, Sparkline.Qltb, String.ltb; simpl.
  - rewrite Qeq_bool_compare.
    destruct (HostPanel.last_latency p ?= HostPanel.last_latency q);
      [| split; [reflexivity | reflexivity] | split; discriminate].
    destruct (String.compare _ _); split; try reflexivity; discriminate.
  - destruct (String.compare _ _); split; try reflexivity; discriminate.
  - destruct (bool_ltb_cmp (negb (HostPanel.last_ok p)) (negb (HostPanel.last_ok q)))
      as [-> ->].
    destruct (bool_cmp _ _); [| split; reflexivity | split; discriminate].
    rewrite Qeq_bool_compare.
    destruct (HostPanel.last_latency p ?= HostPanel.last_latency q);
      [| split; [reflexivity | reflexivity] | split; discriminate].
    destruct (String.compare _ _); split; try reflexivity; discriminate.
Qed.

Lemma panel_le_cmp (key : string) (p q : HostPanel.t) :
  panel_le key p q <-> panel_cmp key p q <> Gt.
Proof.
  unfold panel_le.
  apply (not_after_iff _ _ (App.k key) App.key_ltb _ (panel_cmp_laws key) (key_ltb_spec key)).
Qed.

Lemma panel_cmp_eq_host (key : string) (p q : HostPanel.t) :
  panel_cmp key p q = Eq ->
  Str.lower (host (HostPanel.get_cfg p)) = Str.lower (host (HostPanel.get_cfg q)).
Proof.
  unfold panel_cmp, lex_cmp; simpl.
  destruct (String.eqb key "latency"); [| destruct (String.eqb key "host")].
  - destruct (_ ?= _); try discriminate. apply String.compare_eq_iff.
  - apply String.compare_eq_iff.
  - destruct (bool_cmp _ _); try discriminate.
    destruct (_ ?= _); try discriminate. apply String.compare_eq_iff.
Qed.

Lemma panel_tie_host (key : string) (p q : HostPanel.t) :
  panel_le key p q -> panel_le key q p ->
  Str.lower (host (HostPanel.get_cfg p)) = Str.lower (host (HostPanel.get_cfg q)).
Proof.
  rewrite !panel_le_cmp, (law_opp (panel_cmp_laws key) q p).
  intros H1 H2. apply (panel_cmp_eq_host key).
  destruct (panel_cmp key p q); simpl in *; congruence.
Qed.

Lemma panel_tie_cmp (key : string) (p q : HostPanel.t) :
  panel_tie key p q = true <-> panel_cmp key p q = Eq.
Proof.
  apply (tie_iff _ _ (App.k key) App.key_ltb _ (panel_cmp_laws key) (key_ltb_spec key)).
Qed.

Lemma panel_tie_le (key : string) (p q : HostPanel.t) :
  panel_tie key p q = true <-> panel_le key p q /\ panel_le key q p.
Proof.
  unfold panel_tie, panel_le.
  rewrite andb_true_iff, !negb_true_iff. tauto.
Qed.

Lemma string_compare_refl (s : string) : String.compare s s = Eq.
Proof.
  induction s as [| x s IH]; simpl; [reflexivity |].
  unfold Ascii.compare. rewrite N.compare_refl. exact IH.
Qed.

Lemma same_state_tie (key : string) (p q : HostPanel.t) :
  Str.lower (host (HostPanel.get_cfg p)) = Str.lower (host (HostPanel.get_cfg q)) ->
  HostPanel.last_ok p = HostPanel.last_ok q ->
  (HostPanel.last_latency p == HostPanel.last_latency q)%Q ->
  panel_tie key p q = true.
Proof.
  intros Hh Ho Hl. apply panel_tie_cmp.
  unfold panel_cmp, lex_cmp; simpl.
  rewrite Hh, Ho, (proj1 (Qeq_alt _ _) Hl), string_compare_refl.
  destruct (String.eqb key "latency"); [reflexivity |].
  destruct (String.eqb key "host"); [reflexivity |].
  destruct (HostPanel.last_ok q); reflexivity.
Qed.

Lemma same_host_tie (p q : HostPanel.t) :
  Str.lower (host (HostPanel.get_cfg p)) = Str.lower (host (HostPanel.get_cfg q)) ->
  panel_tie "host" p q = true.
Proof.
  intros Hh. apply panel_tie_cmp. unfold panel_cmp; simpl.
  rewrite Hh. apply string_compare_refl.
Qed.

Lemma string_ltb_compare (a b : string) :
  String.ltb a b = true <-> String.compare a b = Lt.
Proof.
  unfold String.ltb. destruct (String.compare a b); split; congruence.
Qed.

(** The direction of each mode, read off [<] on the keys. *)
Lemma status_direction (p q : HostPanel.t) :
  let lo x := Str.lower (host (HostPanel.get_cfg x)) in
  let before := App.key_ltb (App.k "status" p) (App.k "status" q) in
  (HostPanel.last_ok p = true -> HostPanel.last_ok q = false -> before = true) /\
  (HostPanel.last_ok p = false -> HostPanel.last_ok q = true -> before = false) /\
  (HostPanel.last_ok p = HostPanel.last_ok q ->
   (HostPanel.last_latency p < HostPanel.last_latency q)%Q -> before = true) /\
  (HostPanel.last_ok p = HostPanel.last_ok q ->
   (HostPanel.last_latency p == HostPanel.last_latency q)%Q ->
   (before = true <-> String.compare (lo p) (lo q) = Lt)).
Proof.
  intros lo before. unfold before, App.k, App.key_ltb; simpl.
  split; [intros -> ->; reflexivity |].
  split; [intros -> ->; reflexivity |].
  split.
  - intros -> H. rewrite eqb_reflx, Qeq_bool_compare.
    unfold Sparkline.Qltb. rewrite (proj1 (Qlt_alt _ _) H). reflexivity.
  - intros -> H. rewrite eqb_reflx, Qeq_bool_compare.
    rewrite (proj1 (Qeq_alt _ _) H). apply string_ltb_compare.
Qed.

Lemma latency_direction (p q : HostPanel.t) :
  let lo x := Str.lower (host (HostPanel.get_cfg x)) in
  let before := App.key_ltb (App.k "latency" p) (App.k "latency" q) in
  ((HostPanel.last_latency p < HostPanel.last_latency q)%Q -> before = true) /\
  ((HostPanel.last_latency p == HostPanel.last_latency q)%Q ->
   (before = true <-> String.compare (lo p) (lo q) = Lt)).
Proof.
  intros lo before. unfold before, App.k, App.key_ltb; simpl.
  split.
  - intros H. rewrite Qeq_bool_compare.
    unfold Sparkline.Qltb. rewrite (proj1 (Qlt_alt _ _) H). reflexivity.
  - intros H. rewrite Qeq_bool_compare.
    rewrite (proj1 (Qeq_alt _ _) H). apply string_ltb_compare.
Qed.

(** C7, amended.  For every sort mode (any string other than "latency" and
    "host" is the status mode) the key is the one the specification gives;
    the panels come out as a permutation of the list, each panel not after
    any later one; the key order is total and transitive, and two panels
    tie in it only if their lowercase host names are equal, so that it is a
    total order on panels whose lowercase host names differ; and sorting is
    idempotent on every list.  Panels that share a lowercase host name, the
    last outcome and the last latency tie in every mode (in the host mode
    the name alone decides), and the panels that tie with a given panel
    come out in the relative order they had before the sort.  The order is
    ascending: by status an online panel is before an offline one, then the
    smaller latency is first, then the smaller lowercase host name; by
    latency the smaller latency, then the smaller name; by host the smaller
    name. *)
Theorem sort_panels_order :
  forall (key : string) (ps : list HostPanel.t) (a : App.t),
    let lo p := Str.lower (host (HostPanel.get_cfg p)) in
    (forall p,
        App.k "status" p
        = App.KStatus (negb (HostPanel.last_ok p)) (HostPanel.last_latency p) (lo p) /\
        App.k "latency" p = App.KLatency (HostPanel.last_latency p) (lo p) /\
        App.k "host" p = App.KHost (lo p)) /\
    Permutation ps (App.ordered key ps) /\
    StronglySorted (panel_le key) (App.ordered key ps) /\
    (forall p q, panel_le key p q \/ panel_le key q p) /\
    (forall p q r, panel_le key p q -> panel_le key q r -> panel_le key p r) /\
    (forall p q, panel_le key p q -> panel_le key q p -> lo p = lo q) /\
    (forall p q, lo p <> lo q ->
                 App.key_ltb (App.k key p) (App.k key q) = true \/
                 App.key_ltb (App.k key q) (App.k key p) = true) /\
    App.ordered key (App.ordered key ps) = App.ordered key ps /\
    App.panels (App._sort_panels (App._sort_panels a))
    = App.panels (App._sort_panels a) /\
    (forall p q, panel_tie key p q = true <-> panel_le key p q /\ panel_le key q p) /\
    (forall p q, lo p = lo q -> HostPanel.last_ok p = HostPanel.last_ok q ->
                 (HostPanel.last_latency p == HostPanel.last_latency q)%Q ->
                 panel_tie key p q = true) /\
    (forall p q, lo p = lo q -> panel_tie "host" p q = true) /\
    (forall x, filter (panel_tie key x) (App.ordered key ps)
               = filter (panel_tie key x) ps) /\
    (forall x, filter (panel_tie (App.sort_by a) x) (App.panels (App._sort_panels a))
               = filter (panel_tie (App.sort_by a) x) (App.panels a)) /\
    (forall p q,
        let before := App.key_ltb (App.k "status" p) (App.k "status" q) in
        (HostPanel.last_ok p = true -> HostPanel.last_ok q = false -> before = true) /\
        (HostPanel.last_ok p = false -> HostPanel.last_ok q = true -> before = false) /\
        (HostPanel.last_ok p = HostPanel.last_ok q ->
         (HostPanel.last_latency p < HostPanel.last_latency q)%Q -> before = true) /\
        (HostPanel.last_ok p = HostPanel.last_ok q ->
         (HostPanel.last_latency p == HostPanel.last_latency q)%Q ->
         (before = true <-> String.compare (lo p) (lo q) = Lt))) /\
    (forall p q,
        let before := App.key_ltb (App.k "latency" p) (App.k "latency" q) in
        ((HostPanel.last_latency p < HostPanel.last_latency q)%Q -> before = true) /\
        ((HostPanel.last_latency p == HostPanel.last_latency q)%Q ->
         (before = true <-> String.compare (lo p) (lo q) = Lt))) /\
    (forall p q,
        App.key_ltb (App.k "host" p) (App.k "host" q) = true
        <-> String.compare (lo p) (lo q) = Lt).
Proof.
  intros key ps a lo.
  pose proof (panel_cmp_laws key) as L.
  pose proof (key_ltb_spec key) as S.
  split; [intros p; repeat split |].
  split; [apply sorted_perm |].
  split; [apply (sorted_sorted _ _ _ _ _ L S) |].
  split; [apply (not_after_total _ _ _ _ _ L S) |].
  split; [apply (not_after_trans _ _ _ _ _ L S) |].
  split; [apply panel_tie_host |].
  split.
  { intros p q Hne. rewrite !S, (law_opp L q p).
    destruct (panel_cmp key p q) eqn:E; simpl; auto.
    exfalso. apply Hne. apply (panel_cmp_eq_host key). exact E. }
  split; [apply (sorted_idempotent _ _ _ _ _ L S) |].
  split.
  { simpl. apply (sorted_idempotent _ _ _ _ _ (panel_cmp_laws _) (key_ltb_spec _)). }
  split; [apply panel_tie_le |].
  split; [apply same_state_tie |].
  split; [apply same_host_tie |].
  split.
  { intros x. apply (sorted_stable _ _ _ _ _ L S). }
  split.
  { intros x. simpl.
    apply (sorted_stable _ _ _ _ _ (panel_cmp_laws _) (key_ltb_spec _)). }
  split; [intros p q; apply status_direction |].
  split; [intros p q; apply latency_direction |].
  intros p q. apply string_ltb_compare.
Qed.

Lemma sort_panels_order_witness :
  panel_le "host" ssh_panel http_panel /\
  panel_le "host" http_panel ssh_panel /\
  Str.lower (host (HostPanel.get_cfg ssh_panel))
  = Str.lower (host (HostPanel.get_cfg http_panel)) /\
  App.ordered "status" (App.ordered "status" scenario_panels)
  = App.ordered "status" scenario_panels /\
  panel_tie "status" ssh_panel http_panel = true /\
  filter (panel_tie "status" ssh_panel) (App.ordered "status" [http_panel; ssh_panel])
  = [http_panel; ssh_panel].
Proof.
  assert (H1 : panel_le "host" ssh_panel http_panel) by reflexivity.
  assert (H2 : panel_le "host" http_panel ssh_panel) by reflexivity.
  destruct (sort_panels_order "host" scenario_panels two_host_app)
    as (_ & _ & _ & _ & _ & W6 & _).
  destruct (sort_panels_order "status" scenario_panels two_host_app)
    as (_ & _ & _ & _ & _ & _ & _ & W8 & _).
  destruct (sort_panels_order "status" [http_panel; ssh_panel] two_host_app)
    as (_ & _ & _ & _ & _ & _ & _ & _ & _ & _ & W11 & _ & W13 & _).
  split; [exact H1 |].
  split; [exact H2 |].
  split; [apply (W6 ssh_panel http_panel H1 H2) |].
  split; [exact W8 |].
  split.
  - apply (W11 ssh_panel http_panel); reflexivity.
  - rewrite (W13 ssh_panel). reflexivity.
Defined.

(** The ordering scenario of the specification: by status, the host at
    10 ms, then the host at 50 ms, then the offline host; by host name, the
    names without regard to case. *)
Example status_order_scenario :
  map (fun p => host (HostPanel.get_cfg p)) (App.ordered "status" scenario_panels)
  = ["bravo"; "alpha"; "Charlie"]%string /\
  map (fun p => host (HostPanel.get_cfg p)) (App.ordered "latency" scenario_panels)
  = ["bravo"; "alpha"; "Charlie"]%string /\
  map (fun p => host (HostPanel.get_cfg p)) (App.ordered "host" scenario_panels)
  = ["alpha"; "bravo"; "Charlie"]%string.
Proof. repeat split. Qed.

(** C7 as stated fails for two panels on one host name: the ssh and the
    http panel of example.com tie in every mode although they are different
    panels, and each order of the two is returned unchanged. *)
Lemma same_host_panels_tie :
  ssh_panel <> http_panel /\
  (forall key, panel_le key ssh_panel http_panel /\ panel_le key http_panel ssh_panel) /\
  App.ordered "status" [ssh_panel; http_panel] = [ssh_panel; http_panel] /\
  App.ordered "status" [http_panel; ssh_panel] = [http_panel; ssh_panel] /\
  ~ (forall key p q, panel_le key p q -> panel_le key q p -> p = q).
Proof.
  assert (Hne : ssh_panel <> http_panel).
  { intros H. apply (f_equal (fun p => port (HostPanel.cfg p))) in H.
    vm_compute in H. discriminate. }
  assert (Hle : forall key, panel_le key ssh_panel http_panel
                            /\ panel_le key http_panel ssh_panel).
  { intros key. unfold panel_le, App.k.
    destruct (String.eqb key "latency"); [| destruct (String.eqb key "host")];
      split; reflexivity. }
  split; [exact Hne |].
  split; [exact Hle |].
  split; [reflexivity |].
  split; [reflexivity |].
  intros H. apply Hne. apply (H "status"%string); apply Hle.
Qed.

End Ordering.

(* ================================================================== *)
(** * The sample window *)

Section Window.

Import Sparkline.

Lemma push_max_points (s : t) (lat : option Q) (ok : bool) :
  max_points (push s lat ok) = max_points s.
Proof.
  unfold push. destruct (_ >? _)%Z; reflexivity.
Qed.

(** One push keeps the last [n] of the points and the new one. *)
Lemma push_points (s : t) (lat : option Q) (ok : bool) :
  (0 <= max_points s)%Z ->
  (List.length (points s) <= Z.to_nat (max_points s))%nat ->
  points (push s lat ok)
  = skipn (List.length (points s) + 1 - Z.to_nat (max_points s))
          (points s ++ [as_point (lat, ok)]).
Proof.
  intros HN Hlen. unfold push, as_point; simpl.
  rewrite length_app; simpl.
  destruct (Z.gtb_spec (Z.of_nat (List.length (points s) + 1)) (max_points s)); simpl.
  - assert (D : (List.length (points s) + 1 - Z.to_nat (max_points s) = 1)%nat) by lia.
    rewrite D. reflexivity.
  - assert (D : (List.length (points s) + 1 - Z.to_nat (max_points s) = 0)%nat) by lia.
    rewrite D. reflexivity.
Qed.

Lemma push_all_max_points (samples : list (option Q * bool)) :
  forall s, max_points (push_all s samples) = max_points s.
Proof.
  induction samples as [| x xs IH]; intros s; simpl; [reflexivity |].
  unfold push_all in *. simpl. rewrite IH. apply push_max_points.
Qed.

Lemma push_all_points (samples : list (option Q * bool)) :
  forall s,
    (0 <= max_points s)%Z ->
    (List.length (points s) <= Z.to_nat (max_points s))%nat ->
    points (push_all s samples)
    = skipn (List.length (points s) + List.length samples - Z.to_nat (max_points s))
            (points s ++ map as_point samples).
Proof.
  induction samples as [| [lat ok] xs IH]; intros s HN Hlen.
  - simpl. rewrite app_nil_r.
    replace (List.length (points s) + 0 - Z.to_nat (max_points s))%nat with 0%nat by lia.
    reflexivity.
  - change (push_all s ((lat, ok) :: xs)) with (push_all (push s lat ok) xs).
    pose proof (push_points s lat ok HN Hlen) as P.
    assert (Hlen' : (List.length (points (push s lat ok))
                     <= Z.to_nat (max_points (push s lat ok)))%nat).
    { rewrite push_max_points, P, length_skipn, length_app. simpl. lia. }
    assert (HN' : (0 <= max_points (push s lat ok))%Z)
      by (rewrite push_max_points; exact HN).
    rewrite (IH _ HN' Hlen').
    rewrite push_max_points, P.
    set (n := Z.to_nat (max_points s)) in *.
    set (d := (List.length (points s) + 1 - n)%nat).
    assert (Hd : (d <= List.length (points s ++ [as_point (lat, ok)]))%nat)
      by (rewrite length_app; simpl; lia).
    assert (E : skipn d (points s ++ [as_point (lat, ok)]) ++ map as_point xs
                = skipn d (points s ++ map as_point ((lat, ok) :: xs))).
    { simpl map.
      replace (points s ++ as_point (lat, ok) :: map as_point xs)
        with ((points s ++ [as_point (lat, ok)]) ++ map as_point xs)
        by (rewrite <- app_assoc; reflexivity).
      rewrite (skipn_app d (points s ++ [as_point (lat, ok)]) (map as_point xs)).
      replace (d - List.length (points s ++ [as_point (lat, ok)]))%nat with 0%nat by lia.
      reflexivity. }
    rewrite E, skipn_skipn. f_equal.
    rewrite length_skipn, length_app. simpl. lia.
Qed.

(** C4.  A window of capacity [N >= 0] that starts empty holds, after any
    sequence of pushes, at most [N] points: the last [N] samples pushed, in
    the order pushed.  A push into a window that is not full appends the
    sample; a push into a full window drops the first point of the list
    with the sample appended, which for [N > 0] is the oldest point.  The
    capacity is 80 by default and 100 for the window of a host panel. *)
Theorem window_bounded_fifo :
  forall (N : Z) (samples : list (option Q * bool)) (lat : option Q) (ok : bool),
    (0 <= N)%Z ->
    let s := push_all (init N) samples in
    (Z.of_nat (List.length (points s)) <= N)%Z /\
    points s = skipn (List.length samples - Z.to_nat N) (map as_point samples) /\
    ((Z.of_nat (List.length (points s)) < N)%Z ->
     points (push s lat ok) = points s ++ [as_point (lat, ok)]) /\
    (Z.of_nat (List.length (points s)) = N ->
     points (push s lat ok) = tl (points s ++ [as_point (lat, ok)]) /\
     ((0 < N)%Z -> exists oldest rest,
         points s = oldest :: rest /\
         points (push s lat ok) = rest ++ [as_point (lat, ok)])) /\
    (80 <= default_max_points <= 100)%Z /\
    (forall c d, max_points (HostPanel.spark (HostPanel.init c d)) = 100%Z).
Proof.
  intros N samples lat ok HN s.
  assert (HP : points s = skipn (List.length samples - Z.to_nat N) (map as_point samples)).
  { unfold s. rewrite push_all_points; simpl; [reflexivity | exact HN | lia]. }
  assert (HM : max_points s = N) by (unfold s; apply push_all_max_points).
  assert (HL : (Z.of_nat (List.length (points s)) <= N)%Z).
  { rewrite HP, length_skipn, length_map. lia. }
  split; [exact HL |].
  split; [exact HP |].
  split.
  { intros Hlt. unfold push. fold (as_point (lat, ok)).
    rewrite length_app, HM; simpl.
    destruct (Z.gtb_spec (Z.of_nat (List.length (points s) + 1)) N); [lia | reflexivity]. }
  split.
  { intros Hfull.
    assert (Hpush : points (push s lat ok) = tl (points s ++ [as_point (lat, ok)])).
    { unfold push. fold (as_point (lat, ok)).
      rewrite length_app, HM; simpl.
      destruct (Z.gtb_spec (Z.of_nat (List.length (points s) + 1)) N); [reflexivity | lia]. }
    split; [exact Hpush |].
    intros Hpos. destruct (points s) as [| oldest rest] eqn:Ep.
    - simpl in Hfull. lia.
    - exists oldest, rest. split; [reflexivity |]. rewrite Hpush. reflexivity. }
  split; [unfold default_max_points; lia |].
  intros c d. unfold HostPanel.init, HostPanel.start. simpl.
  destruct (String.eqb _ _); [reflexivity |].
  destruct d; reflexivity.
Qed.

Lemma window_bounded_fifo_witness :
  let samples := [(Some 12, true); (None, false); (Some 7, true); (Some 9, true)] in
  (0 <= 3)%Z /\
  points (push_all (init 3) samples) = [(0, false); (7, true); (9, true)] /\
  points (push (push_all (init 3) samples) (Some 5) true)
  = [(7, true); (9, true); (5, true)].
Proof.
  intros samples.
  destruct (window_bounded_fifo 3 samples (Some 5) true ltac:(lia))
    as (_ & W2 & _ & W4 & _).
  split; [lia |].
  split; [rewrite W2; reflexivity |].
  destruct (W4 eq_refl) as [W5 _]. rewrite W5. reflexivity.
Defined.

End Window.

(* ================================================================== *)
(** * Applying a result to a panel *)

Section ApplyResult.

Local Open Scope Q_scope.

Lemma emit_contract (c : MonitorThread.cycle) :
  prober_contract (MonitorThread.emit c).
Proof.
  unfold prober_contract, MonitorThread.emit.
  destruct (MonitorThread.net c); simpl; split.
  - intros _. eexists. reflexivity.
  - reflexivity.
  - discriminate.
  - intros [l H]. discriminate.
Qed.

Lemma or_else_nonzero (l d : Q) : ~ l == 0 -> Py.or_else (Some l) d = l.
Proof.
  intros H. simpl. destruct (Qeq_bool l 0) eqn:E; [| reflexivity].
  apply Qeq_bool_eq in E. contradiction.
Qed.

(** C5, amended.  For a result that keeps the prober's contract (a latency
    exactly when [ok]) and whose latency, when present, is not zero,
    [_apply_result] sets [_last_ok] to the [ok] flag; sets [_last_latency]
    to the probed latency when [ok] holds and to the sentinel 1e12 ms when
    it does not; pushes [(latency or 0, ok)] on the sample window, where it
    is the newest point of a window with room for one point; and leaves the
    config, the worker and the queue alone. *)
Theorem apply_result_sets_state :
  forall (p : HostPanel.t) (data : ProbeDict),
    prober_contract data ->
    (forall l, d_latency data = Some l -> ~ l == 0) ->
    let p' := HostPanel._apply_result p data in
    HostPanel.last_ok p' = d_ok data /\
    (forall l, d_latency data = Some l ->
               d_ok data = true /\ HostPanel.last_latency p' = l) /\
    (d_ok data = false -> HostPanel.last_latency p' = 1000000000000) /\
    HostPanel.spark p'
    = Sparkline.push (HostPanel.spark p) (d_latency data) (d_ok data) /\
    ((1 <= Sparkline.max_points (HostPanel.spark p))%Z ->
     (List.length (Sparkline.points (HostPanel.spark p))
      <= Z.to_nat (Sparkline.max_points (HostPanel.spark p)))%nat ->
     exists older,
       Sparkline.points (HostPanel.spark p')
       = older ++ [(Py.or_else (d_latency data) 0, d_ok data)]) /\
    HostPanel.cfg p' = HostPanel.cfg p /\
    HostPanel.worker p' = HostPanel.worker p /\
    HostPanel.out_q p' = HostPanel.out_q p.
Proof.
  intros p data [C1 C2] Hnz p'.
  split; [reflexivity |].
  split.
  { intros l Hl. split; [apply C2; exists l; exact Hl |].
    unfold p', HostPanel.last_latency; simpl. rewrite Hl.
    apply or_else_nonzero. apply Hnz. exact Hl. }
  split.
  { intros Hok. unfold p', HostPanel.last_latency; simpl.
    destruct (d_latency data) as [l |] eqn:El; [| reflexivity].
    assert (d_ok data = true) by (apply C2; exists l; reflexivity).
    congruence. }
  split; [reflexivity |].
  split.
  { intros Hcap Hlen. unfold p'; simpl.
    set (s := HostPanel.spark p) in *.
    rewrite (push_points s (d_latency data) (d_ok data)) by (assumption || lia).
    set (d := (List.length (Sparkline.points s) + 1 - Z.to_nat (Sparkline.max_points s))%nat).
    exists (skipn d (Sparkline.points s)).
    rewrite skipn_app.
    replace (d - List.length (Sparkline.points s))%nat with 0%nat by lia.
    reflexivity. }
  repeat split.
Qed.

Lemma apply_result_sets_state_witness :
  let data := MonitorThread.emit
                (MonitorThread.mkCycle false scenario_cfg (Connects (25 # 2)) 0 0 false) in
  let p' := HostPanel._apply_result ssh_panel data in
  prober_contract data /\
  (forall l, d_latency data = Some l -> ~ l == 0) /\
  HostPanel.last_ok p' = true /\
  HostPanel.last_latency p' = 25 # 2 /\
  Sparkline.points (HostPanel.spark p') = [(25 # 2, true)].
Proof.
  intros data p'.
  assert (C : prober_contract data) by apply emit_contract.
  assert (Hz : forall l, d_latency data = Some l -> ~ l == 0).
  { intros l Hl. injection Hl as <-. discriminate. }
  destruct (apply_result_sets_state ssh_panel data C Hz) as (W1 & W2 & _ & W4 & _).
  split; [exact C |].
  split; [exact Hz |].
  split; [exact W1 |].
  split; [apply (W2 (25 # 2) eq_refl) |].
  fold p' in W4. rewrite W4. reflexivity.
Defined.

(** A successful result whose latency is exactly zero is outside the
    theorem above: [latency or 1e12] takes the sentinel for it. *)
Example apply_result_zero_latency :
  HostPanel.last_latency
    (HostPanel._apply_result ssh_panel (mkDict 0 true (Some 0) None "example.com" 22))
  = 1000000000000.
Proof. reflexivity. Qed.

(** C5 as stated fails in the sentinel: after a failed probe
    [_last_latency] is the finite 1e12 ms, which a latency of 2e12 ms
    exceeds, so it is not the +oo of the specification. *)
Lemma apply_result_sentinel_is_finite :
  let data := MonitorThread.emit (refused_pass 0) in
  let p' := HostPanel._apply_result ssh_panel data in
  d_ok data = false /\
  HostPanel.last_latency p' = 1000000000000 /\
  ~ Spec.is_plus_infinity (HostPanel.last_latency p').
Proof.
  intros data p'.
  split; [reflexivity |].
  split; [reflexivity |].
  intros H. specialize (H 2000000000000). vm_compute in H. apply H. reflexivity.
Qed.

End ApplyResult.

(* ================================================================== *)
(** * The 95th percentile of the window *)

Section Percentile.

Import Sparkline.

Local Open Scope Q_scope.

Lemma Qltb_spec (x y : Q) : Qltb x y = true <-> (x ?= y) = Lt.
Proof.
  unfold Qltb. destruct (x ?= y); split; try reflexivity; discriminate.
Qed.

Lemma Qltb_false_le (x y : Q) : Qltb y x = false -> x <= y.
Proof.
  unfold Qltb. destruct (Qcompare_spec y x) as [E | E | E]; intros H.
  - rewrite E. apply Qle_refl.
  - discriminate.
  - apply Qlt_le_weak. exact E.
Qed.

Lemma sorted_floats_ascending (l : list Q) :
  StronglySorted Qle (sorted (fun x => x) Qltb l).
Proof.
  pose proof (sorted_sorted Q Q (fun x => x) Qltb Qcompare Qcompare_laws Qltb_spec l) as H.
  induction H as [| x l' Hs IH Hx]; constructor.
  - exact IH.
  - eapply Forall_impl; [| exact Hx]. intros y. apply Qltb_false_le.
Qed.

Lemma lat_vals_nonempty (pts : list (Q * bool)) : lat_vals pts <> [].
Proof.
  unfold lat_vals. destruct (ok_vals pts); discriminate.
Qed.

Lemma lat_vals_sorted_nonempty (pts : list (Q * bool)) : lat_vals_sorted pts <> [].
Proof.
  intros E. apply (lat_vals_nonempty pts).
  apply Permutation_nil. rewrite <- E. apply Permutation_sym, sorted_perm.
Qed.

Lemma p95_index_unfold (pts : list (Q * bool)) :
  p95_index pts = p95_index_of (Z.of_nat (List.length (lat_vals_sorted pts))).
Proof.
  unfold p95_index. destruct (lat_vals_sorted pts); reflexivity.
Qed.

Lemma p95_unfold (pts : list (Q * bool)) :
  p95 pts = nth_error (lat_vals_sorted pts) (Z.to_nat (p95_index pts)).
Proof.
  unfold p95. pose proof (lat_vals_sorted_nonempty pts) as H.
  destruct (lat_vals_sorted pts); [contradiction | reflexivity].
Qed.

Lemma py_int_scaled (n : Z) :
  (0 <= n)%Z -> py_int (inject_Z n * (95 # 100)) = (95 * n / 100)%Z.
Proof.
  intros H. unfold py_int.
  assert (Hle : Qle_bool 0 (inject_Z n * (95 # 100)) = true).
  { apply Qle_bool_iff. apply Qmult_le_0_compat; [| discriminate].
    change 0 with (inject_Z 0). rewrite <- Zle_Qle. exact H. }
  rewrite Hle. unfold Qfloor, Qmult, inject_Z.
  cbn [Qnum Qden Pos.mul]. f_equal. apply Z.mul_comm.
Qed.

Lemma p95_index_of_floor (n : Z) :
  (0 <= n)%Z -> p95_index_of n = Z.max 0 (95 * n / 100 - 1).
Proof.
  intros H. unfold p95_index_of. rewrite py_int_scaled by exact H. reflexivity.
Qed.

Lemma p95_index_of_range (n : Z) :
  (1 <= n)%Z -> (0 <= p95_index_of n < n)%Z.
Proof.
  intros H. rewrite p95_index_of_floor by lia.
  assert (95 * n / 100 <= n)%Z.
  { apply Z.div_le_upper_bound; lia. }
  lia.
Qed.

(** On every length a panel's window can have, the index computed with the
    binary64 product is the index computed with the exact product. *)
Lemma p95_index_binary64_agrees (len : Z) :
  (0 <= len <= 100)%Z -> p95_index_binary64 len = Some (p95_index_of len).
Proof.
  intros H.
  assert (A : forallb (fun m => match p95_index_binary64 (Z.of_nat m) with
                                | Some i => (i =? p95_index_of (Z.of_nat m))%Z
                                | None => false
                                end) (seq 0 101) = true)
    by (vm_compute; reflexivity).
  rewrite forallb_forall in A.
  specialize (A (Z.to_nat len)).
  rewrite Z2Nat.id in A by lia.
  assert (I : In (Z.to_nat len) (seq 0 101)) by (apply in_seq; lia).
  specialize (A I).
  destruct (p95_index_binary64 len) as [i |]; [| discriminate].
  apply Z.eqb_eq in A. congruence.
Qed.

(** C6, amended.  With no successful sample in the window the value
    [p95 or 20.0] is 20 ms (and so is the drawing scale of a window that is
    not empty).  With [n >= 1] successful samples, none of latency zero, it
    is the sorted-ascending successful sample at index
    [max(0, floor(0.95 * n) - 1)], an index below [n].  The sorted list is
    an ascending permutation of the successful latencies. *)
Theorem p95_floor_rank :
  forall (pts : list (Q * bool)),
    let vals := ok_vals pts in
    let n := Z.of_nat (List.length vals) in
    (vals = [] ->
     p95_or_default pts = Some 20 /\ (pts <> [] -> max_v pts = Some 20)) /\
    (vals <> [] -> (forall x, In x vals -> ~ x == 0) ->
     p95_index pts = Z.max 0 (95 * n / 100 - 1) /\
     (0 <= p95_index pts < n)%Z /\
     exists v,
       nth_error (sorted (fun x => x) Qltb vals)
                 (Z.to_nat (Z.max 0 (95 * n / 100 - 1))) = Some v /\
       p95_or_default pts = Some v /\ In v vals) /\
    StronglySorted Qle (lat_vals_sorted pts) /\
    Permutation (lat_vals pts) (lat_vals_sorted pts).
Proof.
  intros pts vals n.
  split.
  { intros E. unfold p95_or_default, p95, p95_index, lat_vals_sorted, lat_vals.
    fold vals. rewrite E. simpl. split; [reflexivity |].
    intros Hne. unfold max_v, p95_or_default, p95, p95_index, lat_vals_sorted, lat_vals.
    fold vals. rewrite E. destruct pts; [contradiction | reflexivity]. }
  split.
  { intros Hne Hnz.
    assert (Hlv : lat_vals pts = vals).
    { unfold lat_vals. fold vals. destruct vals; [contradiction | reflexivity]. }
    assert (Hlen : List.length (lat_vals_sorted pts) = List.length vals).
    { unfold lat_vals_sorted. rewrite Hlv. symmetry.
      apply Permutation_length, sorted_perm. }
    assert (Hn : (1 <= n)%Z).
    { unfold n. destruct vals; [contradiction | simpl; lia]. }
    assert (Hidx : p95_index pts = Z.max 0 (95 * n / 100 - 1)).
    { rewrite p95_index_unfold, Hlen. apply p95_index_of_floor. lia. }
    assert (Hrange : (0 <= p95_index pts < n)%Z).
    { rewrite p95_index_unfold, Hlen. apply p95_index_of_range. exact Hn. }
    split; [exact Hidx |].
    split; [exact Hrange |].
    destruct (nth_error (lat_vals_sorted pts) (Z.to_nat (p95_index pts))) as [v |] eqn:Ev.
    - assert (Hin : In v vals).
      { apply nth_error_In in Ev. unfold lat_vals_sorted in Ev. rewrite Hlv in Ev.
        eapply Permutation_in; [apply Permutation_sym, sorted_perm | exact Ev]. }
      exists v. split; [| split; [| exact Hin]].
      + rewrite <- Hidx. unfold lat_vals_sorted in Ev. rewrite Hlv in Ev. exact Ev.
      + unfold p95_or_default. rewrite p95_unfold, Ev. simpl. unfold Py.for_else.
        destruct (Qeq_bool v 0) eqn:E0; [| reflexivity].
        apply Qeq_bool_eq in E0. exfalso. apply (Hnz v Hin E0).
    - exfalso. apply nth_error_None in Ev. unfold n in Hrange. lia. }
  split; [apply sorted_floats_ascending |].
  apply sorted_perm.
Qed.

Lemma p95_floor_rank_witness :
  let pts := [(20, true); (0, false); (10, true)] in
  ok_vals pts <> [] /\ (forall x, In x (ok_vals pts) -> ~ x == 0) /\
  p95_index pts = 0%Z /\ p95_or_default pts = Some 10.
Proof.
  intros pts.
  assert (H1 : ok_vals pts <> []) by discriminate.
  assert (H2 : forall x, In x (ok_vals pts) -> ~ x == 0).
  { intros x [<- | [<- | []]]; discriminate. }
  destruct (p95_floor_rank pts) as (_ & W & _).
  destruct (W H1 H2) as (W1 & _ & v & W3 & W4 & _).
  split; [exact H1 |].
  split; [exact H2 |].
  split; [rewrite W1; reflexivity |].
  rewrite W4. f_equal.
  simpl in W3. injection W3 as <-. reflexivity.
Defined.

(** C6 as stated fails in the index: for the two successful samples 10 ms
    and 20 ms the specification's index [ceil(0.95 * 2) - 1] is 1 and
    selects 20 ms, while the code's [int(2 * 0.95) - 1] is 0 and selects
    10 ms, in exact and in binary64 arithmetic. *)
Lemma p95_of_two_samples :
  let pts := [(20, true); (10, true)] in
  Spec.p95_index 2 = 1%Z /\ p95_index pts = 0%Z /\
  p95_index_binary64 2 = Some 0%Z /\
  Spec.p95_latency pts = Some 20 /\ p95_or_default pts = Some 10 /\
  p95_or_default pts <> Spec.p95_latency pts.
Proof.
  intros pts.
  repeat split; try (vm_compute; reflexivity).
  vm_compute. discriminate.
Qed.

End Percentile.

(* ================================================================== *)
(** * Starting a panel *)

Section Start.

Local Open Scope Q_scope.

Lemma start_fresh (c : MonitorConfig) (d_interval d_timeout : Q) :
  Str.strip (host c) <> EmptyString ->
  HostPanel.cfg (HostPanel.init c (d_interval, d_timeout))
  = mkConfig (host c) (port c) (Qmax (1 # 2) d_interval)
             (Qmax (1 # 2) d_timeout) (sound_on_change c) /\
  HostPanel.worker (HostPanel.init c (d_interval, d_timeout))
  = Some (HostPanel.mkThread false true 0).
Proof.
  intros H. unfold HostPanel.init, HostPanel.start; simpl.
  destruct (String.eqb_spec (Str.strip (host c)) EmptyString) as [E | E];
    [contradiction | split; reflexivity].
Qed.

Lemma one_pass_wait (p : HostPanel.t) (f : Z) (net : connect_behaviour)
      (t e : Q) (w : bool) :
  MonitorThread.waits
    (MonitorThread.run f [HostPanel.worker_cycle p false net t e w])
  = [MonitorThread.wait (interval (HostPanel.cfg p))
       (MonitorThread.update_failures (fst (fst (tcp_ping_try net))) f) e].
Proof.
  unfold HostPanel.worker_cycle; simpl. unfold MonitorThread.emit; simpl.
  destruct net; destruct w; reflexivity.
Qed.

(** C9, amended.  The base interval of a worker's wait is the interval
    field of its own panel's config as it is at that pass; [start] has set
    that field to [max(0.5, default interval)] of the application, so two
    hosts started under the same defaults are probed with the same base
    interval whatever intervals they were configured with, and
    [_set_interval] gives every panel the same interval again. *)
Theorem worker_base_interval :
  forall (c1 c2 : MonitorConfig) (d_interval d_timeout : Q) (f : Z)
         (net : connect_behaviour) (t e : Q) (w : bool) (a : App.t) (v : Q),
    Str.strip (host c1) <> EmptyString ->
    Str.strip (host c2) <> EmptyString ->
    let p1 := HostPanel.init c1 (d_interval, d_timeout) in
    let p2 := HostPanel.init c2 (d_interval, d_timeout) in
    MonitorThread.waits
      (MonitorThread.run f [HostPanel.worker_cycle p1 false net t e w])
    = [MonitorThread.wait (interval (HostPanel.cfg p1))
         (MonitorThread.update_failures (fst (fst (tcp_ping_try net))) f) e] /\
    interval (HostPanel.cfg p1) = Qmax (1 # 2) d_interval /\
    interval (HostPanel.cfg p2) = Qmax (1 # 2) d_interval /\
    (1 # 2) <= interval (HostPanel.cfg p1) /\
    MonitorThread.waits
      (MonitorThread.run f [HostPanel.worker_cycle p1 false net t e w])
    = MonitorThread.waits
        (MonitorThread.run f [HostPanel.worker_cycle p2 false net t e w]) /\
    (forall p, In p (App.panels (App._set_interval a v)) ->
               interval (HostPanel.cfg p) = Qmax (1 # 2) v).
Proof.
  intros c1 c2 d_interval d_timeout f net t e w a v H1 H2 p1 p2.
  destruct (start_fresh c1 d_interval d_timeout H1) as [E1 _].
  destruct (start_fresh c2 d_interval d_timeout H2) as [E2 _].
  fold p1 in E1. fold p2 in E2.
  split; [apply one_pass_wait |].
  split; [rewrite E1; reflexivity |].
  split; [rewrite E2; reflexivity |].
  split; [rewrite E1; simpl; apply Q.le_max_l |].
  split; [rewrite !one_pass_wait, E1, E2; reflexivity |].
  intros p Hin. simpl in Hin. apply in_map_iff in Hin.
  destruct Hin as [q [<- _]]. reflexivity.
Qed.

Lemma worker_base_interval_witness :
  Str.strip (host fast_cfg) <> EmptyString /\
  Str.strip (host slow_cfg) <> EmptyString /\
  interval (HostPanel.cfg (HostPanel.init fast_cfg (2, 2))) = Qmax (1 # 2) 2 /\
  interval (HostPanel.cfg (HostPanel.init slow_cfg (2, 2))) = Qmax (1 # 2) 2.
Proof.
  assert (H1 : Str.strip (host fast_cfg) <> EmptyString) by discriminate.
  assert (H2 : Str.strip (host slow_cfg) <> EmptyString) by discriminate.
  destruct (worker_base_interval fast_cfg slow_cfg 2 2 0 (Connects 1) 0 0 false
                                 two_host_app 3 H1 H2) as (_ & W2 & W3 & _).
  repeat split; assumption.
Defined.

(** C9 as stated fails: hosts configured with intervals of 1 s and 5 s get,
    once their panels exist, the same base interval of 2 s, the default,
    and their workers wait the same 2 s between successful probes. *)
Lemma configured_intervals_overridden :
  ~ interval fast_cfg == interval slow_cfg /\
  map (fun p => interval (HostPanel.cfg p)) (App.panels two_host_app) = [2; 2] /\
  map (fun p => worker_waits p 3) (App.panels two_host_app)
  = [[2; 2; 2]; [2; 2; 2]].
Proof.
  split; [intros H; vm_compute in H; discriminate |].
  split; reflexivity.
Qed.

(** C10.  When the host of a panel's config is empty after stripping
    whitespace, [start] returns the panel as it is: a panel made from such
    a config has no worker, an empty queue and the "Idle" label, its config
    is untouched, and polling its queue applies no result. *)
Theorem start_blank_host_noop :
  forall (p : HostPanel.t) (c : MonitorConfig) (defaults : Q * Q),
    Str.strip (host (HostPanel.cfg p)) = EmptyString ->
    Str.strip (host c) = EmptyString ->
    HostPanel.start p defaults = p /\
    HostPanel.init c defaults
    = HostPanel.mk c None [] "Idle" None 1000000000000 (Sparkline.init 100) /\
    HostPanel.worker (HostPanel.init c defaults) = None /\
    HostPanel.out_q (HostPanel.init c defaults) = [] /\
    HostPanel._poll_results (HostPanel.init c defaults)
    = HostPanel.init c defaults.
Proof.
  intros p c defaults Hp Hc.
  assert (S : forall q, Str.strip (host (HostPanel.cfg q)) = EmptyString ->
                        HostPanel.start q defaults = q).
  { intros q Hq. unfold HostPanel.start. rewrite Hq. simpl.
    destruct (HostPanel.worker_alive q); reflexivity. }
  assert (I : HostPanel.init c defaults
              = HostPanel.mk c None [] "Idle" None 1000000000000 (Sparkline.init 100)).
  { unfold HostPanel.init. apply S. exact Hc. }
  split; [apply S; exact Hp |].
  split; [exact I |].
  rewrite I. repeat split.
Qed.

Lemma start_blank_host_noop_witness :
  Str.strip (host blank_cfg) = EmptyString /\
  HostPanel.worker (HostPanel.init blank_cfg (2, 2)) = None /\
  HostPanel.out_q (HostPanel.init blank_cfg (2, 2)) = [].
Proof.
  assert (H : Str.strip (host blank_cfg) = EmptyString) by reflexivity.
  destruct (start_blank_host_noop
              (HostPanel.mk blank_cfg None [] "Idle" None 1000000000000
                            (Sparkline.init 100))
              blank_cfg (2, 2) H H) as (_ & _ & W3 & W4 & _).
  repeat split; assumption.
Defined.

End Start.

(* ================================================================== *)
(** * More on the worker loop *)

Section LoopExtras.

Import MonitorThread.

Local Open Scope Q_scope.

Lemma streak_after_snoc (outcomes : list bool) (ok : bool) :
  streak_after (outcomes ++ [ok]) = update_failures ok (streak_after outcomes).
Proof. unfold streak_after. rewrite fold_left_app. reflexivity. Qed.

Lemma trailing_failures_snoc (outcomes : list bool) (ok : bool) :
  trailing_failures (outcomes ++ [ok])
  = if ok then 0%Z else (1 + trailing_failures outcomes)%Z.
Proof.
  unfold trailing_failures. rewrite rev_app_distr. simpl. destruct ok; reflexivity.
Qed.

Lemma leading_failures_nonneg (l : list bool) : (0 <= leading_failures l)%Z.
Proof.
  induction l as [| [] l IH]; cbn [leading_failures]; lia.
Qed.

Lemma streak_is_trailing (outcomes : list bool) :
  streak_after outcomes = Z.min 10 (trailing_failures outcomes).
Proof.
  induction outcomes as [| ok outcomes IH] using rev_ind.
  - reflexivity.
  - rewrite streak_after_snoc, trailing_failures_snoc, IH.
    pose proof (leading_failures_nonneg (rev outcomes)) as H.
    unfold trailing_failures in *. unfold update_failures.
    destruct ok; lia.
Qed.

Lemma run_quiet_failures (cs : list cycle) :
  forall f, Forall quiet cs ->
  failures_end (run f cs)
  = fold_left (fun f ok => update_failures ok f) (outcomes_of cs) f.
Proof.
  induction cs as [| c cs IH]; intros f H.
  - reflexivity.
  - inversion H as [| c' cs' Hc Hcs]; subst.
    rewrite (run_cons_quiet f c cs Hc); simpl. apply IH. exact Hcs.
Qed.

(** X1.  The streak counts the failed probes since the last success, up to
    10: after any outcomes it is [min(10, t)] for [t] the number of failures
    at the end of the sequence, and the counter of a loop that has seen no
    stop signal is that number for the probes it made. *)
Theorem streak_counts_trailing_failures :
  forall (outcomes : list bool) (cs : list cycle),
    Forall quiet cs ->
    streak_after outcomes = Z.min 10 (trailing_failures outcomes) /\
    failures_end (run 0 cs) = Z.min 10 (trailing_failures (outcomes_of cs)).
Proof.
  intros outcomes cs Hq.
  split; [apply streak_is_trailing |].
  rewrite run_quiet_failures by exact Hq.
  apply (streak_is_trailing (outcomes_of cs)).
Qed.

Lemma streak_counts_trailing_failures_witness :
  let cs := [refused_pass 0;
             mkCycle false scenario_cfg (Connects 3) 0 0 false;
             refused_pass 0; refused_pass 0] in
  Forall quiet cs /\
  failures_end (run 0 cs) = 2%Z /\
  trailing_failures (outcomes_of cs) = 2%Z.
Proof.
  intros cs.
  assert (Hq : Forall quiet cs) by (repeat constructor).
  destruct (streak_counts_trailing_failures [] cs Hq) as [_ W].
  split; [exact Hq |].
  split; [rewrite W; reflexivity | reflexivity].
Defined.

Lemma scaled_at_least_32 (base : Q) (f : Z) :
  (1 # 2) <= base -> (6 <= f)%Z -> 30 <= base * inject_Z (2 ^ f).
Proof.
  intros Hb Hf.
  apply Qle_trans with ((1 # 2) * inject_Z (2 ^ 6)); [discriminate |].
  apply Qle_trans with (base * inject_Z (2 ^ 6)).
  - apply Qmult_le_compat_r; [exact Hb | discriminate].
  - apply scaled_le; [| lia].
    eapply Qle_trans; [| exact Hb]. discriminate.
Qed.

(** X2.  For a base interval of at least 0.5 s the backoff is exactly 30 s
    from streak 6 on, so capping the streak at 10 never changes a wait: the
    backoff at [min(f, 10)] is the backoff at [f]. *)
Theorem backoff_saturates :
  forall (base : Q) (f : Z),
    (1 # 2) <= base -> (0 <= f)%Z ->
    ((6 <= f)%Z -> backoff base f == 30) /\
    backoff base (Z.min f 10) == backoff base f.
Proof.
  intros base f Hb Hf.
  assert (S : forall g, (6 <= g)%Z -> backoff base g == 30).
  { intros g Hg. rewrite backoff_pos_streak by lia.
    apply Q.min_l. apply scaled_at_least_32; assumption. }
  split; [apply S |].
  destruct (Z_le_gt_dec f 10) as [Hle | Hgt].
  - rewrite Z.min_l by exact Hle. reflexivity.
  - rewrite Z.min_r by lia. rewrite (S 10%Z), (S f) by lia. reflexivity.
Qed.

Lemma backoff_saturates_witness :
  (1 # 2) <= (1 # 2) /\ (0 <= 25)%Z /\
  backoff (1 # 2) 25 == 30 /\
  backoff (1 # 2) (Z.min 25 10) == backoff (1 # 2) 25.
Proof.
  assert (H : (1 # 2) <= (1 # 2)) by discriminate.
  assert (H0 : (0 <= 25)%Z) by lia.
  destruct (backoff_saturates (1 # 2) 25 H H0) as [W1 W2].
  split; [exact H |].
  split; [exact H0 |].
  split; [apply W1; lia | exact W2].
Defined.

Lemma update_failures_nonneg (ok : bool) (f : Z) :
  (0 <= f)%Z -> (0 <= update_failures ok f)%Z.
Proof. intros H. unfold update_failures. destruct ok; lia. Qed.

(** The wait of pass [k] is computed from the streak that pass reaches. *)
Lemma run_wait_any (cs : list cycle) :
  forall f k c w,
    nth_error cs k = Some c ->
    nth_error (waits (run f cs)) k = Some w ->
    exists g, ((0 <= f)%Z -> (0 <= g)%Z) /\
              w = wait (interval (cfg_now c))
                       (update_failures (d_ok (emit c)) g) (elapsed c).
Proof.
  induction cs as [| c0 cs IH]; intros f k c w Hk Hw.
  - destruct k; discriminate.
  - rewrite run_cons in Hw.
    destruct (stop_is_set c0); [destruct k; discriminate |].
    destruct (setup c0); [| destruct k; discriminate].
    assert (Hlast : nth_error [wait (interval (cfg_now c0))
                                    (update_failures (d_ok (emit c0)) f) (elapsed c0)] k
                    = Some w ->
                    exists g, ((0 <= f)%Z -> (0 <= g)%Z) /\
                      w = wait (interval (cfg_now c))
                               (update_failures (d_ok (emit c)) g) (elapsed c)).
    { intros Hw'. destruct k as [| k]; simpl in Hk, Hw'.
      - injection Hk as <-. injection Hw' as <-.
        exists f. split; [tauto | reflexivity].
      - destruct k; discriminate. }
    destruct (wait_raises c0); [exact (Hlast Hw) |].
    destruct (stop_in_wait c0); [exact (Hlast Hw) |]. clear Hlast. simpl in Hw.
    destruct k as [| k]; simpl in Hk, Hw.
    + injection Hk as <-. injection Hw as <-.
      exists f. split; [tauto | reflexivity].
    + destruct (IH _ k c w Hk Hw) as (g & Hg & E).
      exists g. split; [| exact E].
      intros Hf. apply Hg. apply update_failures_nonneg. exact Hf.
Qed.

(** X3.  Every wait of a run is at least 0, whatever time the probe took
    (a negative one too, when the wall clock steps back during the probe)
    and whatever the interval is.  In a run that starts from a streak of at
    least 0 the wait after a failed probe is at most 30 s less the elapsed
    time, floored at 0, hence at most 30 s when the probe took a
    non-negative time; and the wait after a successful probe is the
    interval less the elapsed time, floored at 0, hence at most the
    interval when neither is negative. *)
Theorem wait_bounds :
  forall (cs : list cycle) (f : Z) (k : nat) (c : cycle) (w : Q),
    nth_error cs k = Some c ->
    nth_error (waits (run f cs)) k = Some w ->
    0 <= w /\
    ((0 <= f)%Z -> refused c ->
     w <= Qmax 0 (30 - elapsed c) /\ (0 <= elapsed c -> w <= 30)) /\
    ((exists l, net c = Connects l) ->
     w == Qmax 0 (interval (cfg_now c) - elapsed c) /\
     (0 <= elapsed c -> 0 <= interval (cfg_now c) -> w <= interval (cfg_now c))).
Proof.
  intros cs f k c w Hk Hw.
  destruct (run_wait_any cs f k c w Hk Hw) as (g & Hg & ->).
  split; [apply wait_nonneg |].
  assert (Hsub : forall b, 0 <= elapsed c -> b - elapsed c <= b).
  { intros b He. setoid_replace b with (b - 0) at 2 by ring.
    apply Qplus_le_compat; [apply Qle_refl |].
    apply Qopp_le_compat. exact He. }
  split.
  - intros Hf [msg Hm]. unfold emit, put. rewrite Hm. simpl.
    assert (Hb : backoff (interval (cfg_now c)) (update_failures false g) <= 30).
    { rewrite backoff_pos_streak
        by (unfold update_failures; specialize (Hg Hf); lia).
      apply Q.le_min_l. }
    assert (Hw1 : wait (interval (cfg_now c)) (update_failures false g) (elapsed c)
                  <= Qmax 0 (30 - elapsed c)).
    { unfold wait. apply Q.max_le_compat_l.
      apply Qplus_le_compat; [exact Hb | apply Qle_refl]. }
    split; [exact Hw1 |].
    intros He. eapply Qle_trans; [exact Hw1 |].
    apply Q.max_lub; [discriminate | apply Hsub; exact He].
  - intros [l Hl]. unfold emit, put. rewrite Hl. simpl.
    unfold wait. rewrite backoff_zero_streak.
    split; [reflexivity |].
    intros He Hi. apply Q.max_lub; [exact Hi | apply Hsub; exact He].
Qed.

Lemma wait_bounds_witness :
  let late := refused_pass (- (5)) in
  let cs := [refused_pass (1 # 4); late; refused_pass (1 # 4)] in
  nth_error cs 1 = Some late /\
  nth_error (waits (run 0 cs)) 1 = Some (wait 2 2 (- (5))) /\
  0 <= wait 2 2 (- (5)) /\ wait 2 2 (- (5)) <= 35.
Proof.
  intros late cs.
  assert (Hr : refused late)
    by (exists "Connection refused"%string; reflexivity).
  destruct (wait_bounds cs 0 1 late (wait 2 2 (- (5))) eq_refl eq_refl)
    as (W1 & W2 & _).
  split; [reflexivity |].
  split; [reflexivity |].
  split; [exact W1 |].
  destruct (W2 (Z.le_refl 0) Hr) as [W3 _].
  eapply Qle_trans; [exact W3 | discriminate].
Defined.

Lemma run_lengths (cs : list cycle) :
  forall f, List.length (out_q (run f cs)) = List.length (waits (run f cs))
            /\ (List.length (out_q (run f cs)) <= List.length cs)%nat.
Proof.
  induction cs as [| c cs IH]; intros f.
  - split; [reflexivity | simpl; lia].
  - rewrite run_cons.
    destruct (stop_is_set c); simpl; [split; [reflexivity | lia] |].
    destruct (setup c); simpl; [| split; [reflexivity | lia]].
    destruct (wait_raises c); simpl; [split; [reflexivity | lia] |].
    destruct (stop_in_wait c); simpl; [split; [reflexivity | lia] |].
    destruct (IH (update_failures (d_ok (emit c)) f)) as [IH1 IH2].
    split; [f_equal; exact IH1 | lia].
Qed.

Lemma run_out_q_prefix (cs : list cycle) :
  forall f, out_q (run f cs)
            = map emit (firstn (List.length (out_q (run f cs))) cs).
Proof.
  induction cs as [| c cs IH]; intros f.
  - reflexivity.
  - rewrite run_cons.
    destruct (stop_is_set c); simpl; [reflexivity |].
    destruct (setup c); simpl; [| reflexivity].
    destruct (wait_raises c); simpl; [reflexivity |].
    destruct (stop_in_wait c); simpl; [reflexivity |].
    f_equal. apply IH.
Qed.

Lemma emit_error_iff (c : cycle) :
  (d_ok (emit c) = false <-> exists e, d_error (emit c) = Some e) /\
  d_host (emit c) = host (cfg_now c) /\ d_port (emit c) = port (cfg_now c).
Proof.
  unfold emit. destruct (net c); simpl; repeat split; try discriminate.
  - intros [e H]. discriminate.
  - intros _. eexists. reflexivity.
Qed.

(** X4.  Whatever the environment does, the loop puts exactly one result on
    the queue per wait it starts, the results are those of the first passes
    in the order of the passes, and each result has a latency exactly when
    it is [ok], an error message exactly when it is not, and the host and
    port of the config read in its pass. *)
Theorem one_result_per_pass :
  forall (f : Z) (cs : list cycle),
    let t := run f cs in
    List.length (out_q t) = List.length (waits t) /\
    (List.length (out_q t) <= List.length cs)%nat /\
    out_q t = map emit (firstn (List.length (out_q t)) cs) /\
    Forall (fun d => prober_contract d /\
                     (d_ok d = false <-> exists e, d_error d = Some e)) (out_q t) /\
    (forall k d, nth_error (out_q t) k = Some d ->
                 exists c, nth_error cs k = Some c /\
                           d_host d = host (cfg_now c) /\
                           d_port d = port (cfg_now c)).
Proof.
  intros f cs t.
  destruct (run_lengths cs f) as [L1 L2].
  pose proof (run_out_q_prefix cs f) as P. fold t in L1, L2, P.
  split; [exact L1 |].
  split; [exact L2 |].
  split; [exact P |].
  split.
  - rewrite P. apply Forall_forall. intros d Hd.
    apply in_map_iff in Hd. destruct Hd as (c & <- & _).
    split; [apply emit_contract | apply emit_error_iff].
  - intros k d Hd. rewrite P in Hd.
    rewrite nth_error_map in Hd.
    destruct (nth_error (firstn (List.length (out_q t)) cs) k) as [c |] eqn:Ec;
      [| discriminate].
    injection Hd as <-. exists c. split; [| apply emit_error_iff].
    rewrite nth_error_firstn in Ec.
    destruct (Nat.ltb k (List.length (out_q t))); [exact Ec | discriminate].
Qed.

Lemma run_stopped_absorbs (cs : list cycle) :
  forall f more, stopped (run f cs) = true -> run f (cs ++ more) = run f cs.
Proof.
  induction cs as [| c cs IH]; intros f more H.
  - discriminate.
  - rewrite <- app_comm_cons. rewrite run_cons in H. rewrite !run_cons.
    destruct (stop_is_set c); [reflexivity |].
    destruct (setup c); [| reflexivity].
    destruct (wait_raises c); [reflexivity |].
    destruct (stop_in_wait c); [reflexivity |].
    simpl in H. simpl. rewrite (IH _ more H). reflexivity.
Qed.

Lemma run_continues (cs : list cycle) :
  forall f more,
    stopped (run f cs) = false ->
    out_q (run f (cs ++ more))
    = out_q (run f cs) ++ out_q (run (failures_end (run f cs)) more) /\
    waits (run f (cs ++ more))
    = waits (run f cs) ++ waits (run (failures_end (run f cs)) more) /\
    failures_end (run f (cs ++ more))
    = failures_end (run (failures_end (run f cs)) more) /\
    stopped (run f (cs ++ more)) = stopped (run (failures_end (run f cs)) more).
Proof.
  induction cs as [| c cs IH]; intros f more H.
  - repeat split.
  - rewrite <- app_comm_cons. rewrite run_cons in H. rewrite !run_cons.
    destruct (stop_is_set c); [discriminate |].
    destruct (setup c); [| discriminate].
    destruct (wait_raises c); [discriminate |].
    destruct (stop_in_wait c); [discriminate |].
    simpl in *.
    destruct (IH _ more H) as (I1 & I2 & I3 & I4).
    rewrite I1, I2, I3, I4. repeat split.
Qed.

(** X5.  A run that has ended is not extended by anything the
    environment offers afterwards; a run that has not ended goes on with
    the streak it has reached: its queue and its waits over [cs ++ more] are
    those over [cs] followed by those of a run over [more] that starts from
    that streak. *)
Theorem run_composes :
  forall (f : Z) (cs more : list cycle),
    (stopped (run f cs) = true -> run f (cs ++ more) = run f cs) /\
    (stopped (run f cs) = false ->
     out_q (run f (cs ++ more))
     = out_q (run f cs) ++ out_q (run (failures_end (run f cs)) more) /\
     waits (run f (cs ++ more))
     = waits (run f cs) ++ waits (run (failures_end (run f cs)) more) /\
     failures_end (run f (cs ++ more))
     = failures_end (run (failures_end (run f cs)) more) /\
     stopped (run f (cs ++ more))
     = stopped (run (failures_end (run f cs)) more)).
Proof.
  intros f cs more. split.
  - apply run_stopped_absorbs.
  - apply run_continues.
Qed.

Lemma run_composes_witness :
  let cs := [refused_pass 0; stopping_pass (Connects 5)] in
  let more := [refused_pass 0; refused_pass 0] in
  stopped (run 0 cs) = true /\ run 0 (cs ++ more) = run 0 cs /\
  stopped (run 0 more) = false /\
  waits (run 0 (more ++ more))
  = waits (run 0 more) ++ waits (run (failures_end (run 0 more)) more).
Proof.
  intros cs more.
  destruct (run_composes 0 cs more) as [W1 _].
  destruct (run_composes 0 more more) as [_ W2].
  destruct (W2 eq_refl) as (_ & W3 & _).
  split; [reflexivity |].
  split; [exact (W1 eq_refl) |].
  split; [reflexivity | exact W3].
Defined.

Lemma firstn_snoc (cs : list cycle) :
  forall k c, nth_error cs k = Some c -> firstn (S k) cs = firstn k cs ++ [c].
Proof.
  induction cs as [| c0 cs IH]; intros k c H.
  - destruct k; discriminate.
  - destruct k as [| k]; simpl in H.
    + injection H as <-. reflexivity.
    + change (firstn (S (S k)) (c0 :: cs)) with (c0 :: firstn (S k) cs).
      rewrite (IH k c H). reflexivity.
Qed.

(** X17.  While no stop signal is seen, the wait after a probe depends on
    the past only through the number [t] of consecutive failures that end
    with that probe: it is [max(0, backoff(interval, min(10, t)) - elapsed)].
    So a success brings the wait back to the plain interval at once,
    whatever failed before it. *)
Theorem wait_from_history :
  forall (cs : list cycle) (k : nat) (c : cycle),
    Forall quiet cs ->
    nth_error cs k = Some c ->
    nth_error (waits (run 0 cs)) k
    = Some (wait (interval (cfg_now c))
                 (Z.min 10 (trailing_failures (outcomes_of (firstn (S k) cs))))
                 (elapsed c)) /\
    ((exists l, net c = Connects l) ->
     nth_error (waits (run 0 cs)) k
     = Some (Qmax 0 (interval (cfg_now c) - elapsed c))).
Proof.
  intros cs k c Hq Hk.
  assert (Hsplit : cs = firstn k cs ++ c :: skipn (S k) cs).
  { rewrite <- (firstn_skipn (S k) cs) at 1. rewrite (firstn_snoc cs k c Hk).
    rewrite <- app_assoc. reflexivity. }
  assert (Hk' : (k < List.length cs)%nat)
    by (apply nth_error_Some; rewrite Hk; discriminate).
  assert (Hpre : Forall quiet (firstn k cs)).
  { rewrite Forall_forall in *. intros x Hx. apply Hq.
    rewrite <- (firstn_skipn k cs). apply in_or_app. left. exact Hx. }
  assert (Hc : quiet c).
  { rewrite Forall_forall in Hq. apply Hq. eapply nth_error_In. exact Hk. }
  destruct (run_quiet (firstn k cs) 0 Hpre) as (R1 & R2 & _).
  destruct (run_lengths (firstn k cs) 0) as [L1 _].
  destruct (run_continues (firstn k cs) 0 (c :: skipn (S k) cs) R1) as (_ & W & _).
  assert (Hw : nth_error (waits (run 0 cs)) k
               = Some (wait (interval (cfg_now c))
                            (update_failures (d_ok (emit c))
                               (failures_end (run 0 (firstn k cs))))
                            (elapsed c))).
  { rewrite Hsplit at 1. rewrite W.
    rewrite nth_error_app2 by (rewrite <- L1, R2, length_firstn; lia).
    replace (k - List.length (waits (run 0 (firstn k cs))))%nat with 0%nat
      by (rewrite <- L1, R2, length_firstn; lia).
    rewrite (run_cons_quiet _ c _ Hc). reflexivity. }
  assert (Hs : update_failures (d_ok (emit c)) (failures_end (run 0 (firstn k cs)))
               = Z.min 10 (trailing_failures (outcomes_of (firstn (S k) cs)))).
  { rewrite run_quiet_failures by exact Hpre.
    rewrite (firstn_snoc cs k c Hk).
    unfold outcomes_of. rewrite map_app. simpl map.
    rewrite <- streak_is_trailing, streak_after_snoc. reflexivity. }
  split.
  - rewrite Hw, Hs. reflexivity.
  - intros [l Hl]. rewrite Hw. unfold emit, put. rewrite Hl. reflexivity.
Qed.

Lemma wait_from_history_witness :
  let ok_pass := mkCycle false scenario_cfg (Connects 3) 0 (1 # 4) false in
  let cs := [refused_pass 0; refused_pass 0; refused_pass 0; ok_pass; refused_pass 0] in
  Forall quiet cs /\ nth_error cs 3 = Some ok_pass /\
  map Qred (waits (run 0 cs)) = [4; 8; 16; 7 # 4; 4].
Proof.
  intros ok_pass cs.
  assert (Hq : Forall quiet cs) by (repeat constructor).
  destruct (wait_from_history cs 3 ok_pass Hq eq_refl) as [_ W].
  pose proof (W (ex_intro _ 3 eq_refl)) as W'.
  split; [exact Hq |].
  split; reflexivity.
Defined.

End LoopExtras.

(* ================================================================== *)
(** * More on the sample window *)

Section WindowExtras.

Import Sparkline.

Local Open Scope Q_scope.

Lemma last_latency_rev_skip (post : list (Q * bool)) (rest : list (Q * bool)) :
  Forall (fun pt => snd pt = false) post ->
  last_latency_rev (rev post ++ rest) = last_latency_rev rest.
Proof.
  intros H. apply Forall_rev in H.
  induction H as [| [lat ok] l Hok _ IH]; simpl.
  - reflexivity.
  - simpl in Hok. subst ok. exact IH.
Qed.

(** A push into a window of capacity at least 1 leaves the new point at the
    end, whether or not a point was dropped. *)
Lemma push_newest (s : t) (lat : option Q) (ok : bool) :
  (1 <= max_points s)%Z ->
  exists older, points (push s lat ok) = older ++ [as_point (lat, ok)].
Proof.
  intros H. unfold push.
  change (Py.or_else lat 0, ok) with (as_point (lat, ok)).
  destruct (Z.gtb_spec (Z.of_nat (List.length (points s ++ [as_point (lat, ok)])))
                       (max_points s)) as [G | G]; simpl.
  - destruct (points s) as [| x rest].
    + simpl in G. lia.
    + exists rest. reflexivity.
  - exists (points s). reflexivity.
Qed.

(** X6.  [last_latency] is the sentinel 1e12 when no point of the window is
    a success, and otherwise the latency of the newest successful point,
    whatever failures came after it; right after the push of a success of
    non-zero latency into a window of capacity at least 1 it is that
    latency. *)
Theorem last_latency_newest_success :
  forall (s : t) (pre post : list (Q * bool)) (lat L : Q),
    (Forall (fun pt => snd pt = false) (points s) ->
     last_latency s = 1000000000000) /\
    (points s = pre ++ (lat, true) :: post ->
     Forall (fun pt => snd pt = false) post ->
     last_latency s = lat) /\
    ((1 <= max_points s)%Z -> ~ L == 0 ->
     last_latency (push s (Some L) true) = L).
Proof.
  intros s pre post lat L.
  assert (D : forall s' pre' lat' post',
             points s' = pre' ++ (lat', true) :: post' ->
             Forall (fun pt => snd pt = false) post' ->
             last_latency s' = lat').
  { intros s' pre' lat' post' E H. unfold last_latency. rewrite E.
    rewrite rev_app_distr. simpl. rewrite <- app_assoc.
    rewrite last_latency_rev_skip by exact H. reflexivity. }
  split.
  - intros H. unfold last_latency.
    rewrite <- (app_nil_r (rev (points s))).
    rewrite last_latency_rev_skip by exact H. reflexivity.
  - split; [apply D |].
    intros Hcap Hnz.
    destruct (push_newest s (Some L) true Hcap) as [older E].
    unfold as_point in E. simpl fst in E. simpl snd in E.
    rewrite (or_else_nonzero L 0 Hnz) in E.
    apply (D _ older L []); [exact E | constructor].
Qed.

Lemma last_latency_newest_success_witness :
  let s := mk 100 [(12, true); (7, true); (0, false); (0, false)] in
  points s = [(12, true)] ++ (7, true) :: [(0, false); (0, false)] /\
  Forall (fun pt : Q * bool => snd pt = false) [(0, false); (0, false)] /\
  last_latency s = 7 /\
  last_latency (push s (Some 9) true) = 9.
Proof.
  intros s.
  assert (H : Forall (fun pt : Q * bool => snd pt = false) [(0, false); (0, false)])
    by (repeat constructor).
  destruct (last_latency_newest_success
              s [(12, true)] [(0, false); (0, false)] 7 9) as (_ & W2 & W3).
  split; [reflexivity |].
  split; [exact H |].
  split; [exact (W2 eq_refl H) |].
  apply W3; [simpl; lia | discriminate].
Defined.

Lemma lat_vals_length (pts : list (Q * bool)) :
  (1 <= List.length (lat_vals_sorted pts))%nat.
Proof.
  pose proof (lat_vals_sorted_nonempty pts) as H.
  destruct (lat_vals_sorted pts); [contradiction | simpl; lia].
Qed.

(** X7.  Drawing never fails on the window: the index of the percentile is
    always inside the sorted list, so [p95] is one of the latencies
    considered, and the scale [max_v] of a window with points is at least
    20, hence not zero where the drawing divides by it; an empty window is
    not drawn at all. *)
Theorem redraw_scale_defined :
  forall (pts : list (Q * bool)),
    (exists v, p95 pts = Some v /\ In v (lat_vals pts)) /\
    (pts <> [] -> exists m, max_v pts = Some m /\ 20 <= m /\ ~ m == 0) /\
    (pts = [] -> max_v pts = None).
Proof.
  intros pts.
  assert (P : exists v, p95 pts = Some v /\ In v (lat_vals pts)).
  { rewrite p95_unfold.
    destruct (nth_error (lat_vals_sorted pts) (Z.to_nat (p95_index pts)))
      as [v |] eqn:E.
    - exists v. split; [reflexivity |].
      apply nth_error_In in E.
      eapply Permutation_in; [apply Permutation_sym, sorted_perm | exact E].
    - exfalso. apply nth_error_None in E.
      pose proof (lat_vals_length pts) as Hl.
      rewrite p95_index_unfold in E.
      pose proof (p95_index_of_range (Z.of_nat (List.length (lat_vals_sorted pts)))) as R.
      lia. }
  split; [exact P |].
  split.
  - intros Hne. destruct P as (v & Hv & _).
    unfold max_v, p95_or_default. rewrite Hv. simpl.
    destruct pts; [contradiction |].
    exists (Qmax 20 (Py.for_else v 20)).
    split; [reflexivity |].
    assert (H20 : 20 <= Qmax 20 (Py.for_else v 20)) by apply Q.le_max_l.
    split; [exact H20 |].
    intros E. rewrite E in H20. apply H20. reflexivity.
  - intros ->. reflexivity.
Qed.

Lemma filter_length_perm (f : Q -> bool) (l l' : list Q) :
  Permutation l l' -> List.length (filter f l) = List.length (filter f l').
Proof.
  intros H. induction H as [| x l l' _ IH | x y l | l l' l'' _ IH1 _ IH2]; simpl.
  - reflexivity.
  - destruct (f x); simpl; congruence.
  - destruct (f x), (f y); reflexivity.
  - congruence.
Qed.

Lemma filter_length_bound (f : Q -> bool) (l : list Q) :
  (List.length (filter f l) <= List.length l)%nat.
Proof.
  induction l as [| x l IH]; simpl; [lia |].
  destruct (f x); simpl; lia.
Qed.

Lemma sorted_prefix_below (l : list Q) :
  StronglySorted Qle l ->
  forall i v, nth_error l i = Some v -> Forall (fun x => x <= v) (firstn (S i) l).
Proof.
  induction 1 as [| x l Hs IH Hx]; intros i v Hi.
  - destruct i; discriminate.
  - destruct i as [| i]; simpl in Hi.
    + injection Hi as <-. constructor; [apply Qle_refl | constructor].
    + change (firstn (S (S i)) (x :: l)) with (x :: firstn (S i) l).
      constructor.
      * rewrite Forall_forall in Hx. apply Hx. eapply nth_error_In. exact Hi.
      * apply IH. exact Hi.
Qed.

Lemma filter_above_none (v : Q) (l : list Q) :
  Forall (fun x => x <= v) l -> filter (fun x => Qltb v x) l = [].
Proof.
  induction 1 as [| x l Hx _ IH]; simpl; [reflexivity |].
  destruct (Qltb v x) eqn:E; [| exact IH].
  apply Qltb_spec in E. apply Qlt_alt in E.
  exfalso. apply (Qlt_not_le _ _ E). exact Hx.
Qed.

Lemma count_above_mono (v m : Q) (l : list Q) :
  v <= m -> (count_above m l <= count_above v l)%nat.
Proof.
  intros H. unfold count_above.
  induction l as [| x l IH]; simpl; [lia |].
  destruct (Qltb m x) eqn:Em; destruct (Qltb v x) eqn:Ev; simpl; try lia.
  exfalso. apply Qltb_spec in Em. apply Qlt_alt in Em.
  assert (Hvx : v < x) by (eapply Qle_lt_trans; eassumption).
  apply Qlt_alt in Hvx. apply Qltb_spec in Hvx. congruence.
Qed.

(** X8.  The percentile clips few samples: when the window has [n >= 1]
    successful samples, the number of them that are above [p95], and so
    the number above the drawing scale [max_v], is at most
    [n - floor(0.95 * n)], that is at most one in twenty, rounded up. *)
Theorem p95_clips_one_in_twenty :
  forall (pts : list (Q * bool)),
    ok_vals pts <> [] ->
    let n := Z.of_nat (List.length (ok_vals pts)) in
    exists v m,
      p95 pts = Some v /\ max_v pts = Some m /\ v <= m /\
      (Z.of_nat (count_above v (ok_vals pts)) <= n - 95 * n / 100)%Z /\
      (Z.of_nat (count_above m (ok_vals pts)) <= n - 95 * n / 100)%Z /\
      (20 * (n - 95 * n / 100) < n + 20)%Z.
Proof.
  intros pts Hne n.
  cut (exists v, p95 pts = Some v /\
                 (Z.of_nat (count_above v (ok_vals pts)) <= n - 95 * n / 100)%Z /\
                 (20 * (n - 95 * n / 100) < n + 20)%Z).
  { intros (v & Hv & Hc & Hb).
    assert (Hpts : pts <> []) by (intros ->; apply Hne; reflexivity).
    exists v, (Qmax 20 (Py.for_else v 20)).
    assert (Hm : v <= Qmax 20 (Py.for_else v 20)).
    { eapply Qle_trans; [| apply Q.le_max_r].
      unfold Py.for_else. destruct (Qeq_bool v 0) eqn:E0; [| apply Qle_refl].
      apply Qeq_bool_eq in E0. rewrite E0. discriminate. }
    split; [exact Hv |].
    split.
    { unfold max_v, p95_or_default. rewrite Hv.
      destruct pts; [contradiction | reflexivity]. }
    split; [exact Hm |].
    split; [exact Hc |].
    split; [| exact Hb].
    pose proof (count_above_mono v _ (ok_vals pts) Hm). lia. }
  assert (Hlv : lat_vals pts = ok_vals pts).
  { unfold lat_vals. destruct (ok_vals pts); [contradiction | reflexivity]. }
  assert (Hperm : Permutation (ok_vals pts) (lat_vals_sorted pts)).
  { unfold lat_vals_sorted. rewrite Hlv. apply sorted_perm. }
  assert (Hlen : List.length (lat_vals_sorted pts) = List.length (ok_vals pts)).
  { symmetry. apply Permutation_length. exact Hperm. }
  assert (Hn : (1 <= n)%Z).
  { unfold n. destruct (ok_vals pts); [contradiction | simpl; lia]. }
  destruct (redraw_scale_defined pts) as ((v & Hv & _) & _).
  exists v. split; [exact Hv |].
  split.
  - rewrite p95_unfold in Hv.
    unfold count_above. rewrite (filter_length_perm _ _ _ Hperm).
    set (s := lat_vals_sorted pts) in *.
    set (i := Z.to_nat (p95_index pts)) in *.
    rewrite <- (firstn_skipn (S i) s), filter_app, length_app.
    rewrite (filter_above_none v (firstn (S i) s))
      by (apply sorted_prefix_below; [apply sorted_floats_ascending | exact Hv]).
    change (List.length (@nil Q)) with 0%nat.
    pose proof (filter_length_bound (fun x => Qltb v x) (skipn (S i) s)) as B.
    rewrite length_skipn in B.
    assert (Hi : p95_index pts = Z.max 0 (95 * n / 100 - 1)).
    { rewrite p95_index_unfold. fold s. rewrite Hlen. apply p95_index_of_floor. lia. }
    assert (Hd : (95 * n / 100 <= n)%Z) by (apply Z.div_le_upper_bound; lia).
    assert (Hi' : (95 * n / 100 - 1 <= Z.of_nat i)%Z) by (unfold i; lia).
    unfold n in *. lia.
  - pose proof (Z.mul_div_le (95 * n) 100) as D1.
    pose proof (Z.mod_pos_bound (95 * n) 100) as D2.
    pose proof (Z.div_mod (95 * n) 100) as D3.
    lia.
Qed.

Lemma p95_clips_one_in_twenty_witness :
  let pts := [(30, true); (0, false); (10, true); (20, true)] in
  ok_vals pts <> [] /\
  p95 pts = Some 20 /\ count_above 20 (ok_vals pts) = 1%nat.
Proof.
  intros pts.
  assert (H : ok_vals pts <> []) by discriminate.
  destruct (p95_clips_one_in_twenty pts H) as (v & m & Hv & _).
  split; [exact H |].
  split; reflexivity.
Defined.

End WindowExtras.

(* ================================================================== *)
(** * More on the host panel *)

Section PanelExtras.

Local Open Scope Q_scope.

Lemma apply_with_queue (p : HostPanel.t) (q : list ProbeDict) (d : ProbeDict) :
  HostPanel._apply_result (with_queue p q) d
  = with_queue (HostPanel._apply_result p d) q.
Proof. reflexivity. Qed.

Lemma fold_apply_with_queue (items : list ProbeDict) :
  forall p q,
    fold_left HostPanel._apply_result items (with_queue p q)
    = with_queue (fold_left HostPanel._apply_result items p) q.
Proof.
  induction items as [| d items IH]; intros p q; simpl.
  - reflexivity.
  - rewrite apply_with_queue. apply IH.
Qed.

Lemma fold_apply_fields (items : list ProbeDict) :
  forall p,
    let p' := fold_left HostPanel._apply_result items p in
    HostPanel.cfg p' = HostPanel.cfg p /\
    HostPanel.worker p' = HostPanel.worker p /\
    HostPanel.out_q p' = HostPanel.out_q p /\
    HostPanel.spark p' = push_all (HostPanel.spark p) (map sample_of items).
Proof.
  induction items as [| d items IH]; intros p; simpl.
  - repeat split.
  - destruct (IH (HostPanel._apply_result p d)) as (I1 & I2 & I3 & I4).
    repeat split; assumption.
Qed.

Lemma poll_as_fold (p : HostPanel.t) :
  HostPanel._poll_results p
  = with_queue (fold_left HostPanel._apply_result (HostPanel.out_q p) p) [].
Proof. reflexivity. Qed.

Lemma with_queue_same (p : HostPanel.t) : with_queue p (HostPanel.out_q p) = p.
Proof. destruct p; reflexivity. Qed.

Lemma with_queue_twice (p : HostPanel.t) (q q' : list ProbeDict) :
  with_queue (with_queue p q) q' = with_queue p q'.
Proof. reflexivity. Qed.

(** X9.  Polling drains the queue in order: afterwards the queue is empty,
    the window has received one sample per queued result, oldest first,
    and the last state is that of the newest result; config and worker are
    untouched; a poll of an empty queue changes nothing; and results that
    arrive after a poll and are polled later leave the panel as if all had
    been polled at once. *)
Theorem poll_results_drains :
  forall (p : HostPanel.t) (items more : list ProbeDict) (d : ProbeDict),
    let p' := HostPanel._poll_results p in
    HostPanel.out_q p' = [] /\
    HostPanel.cfg p' = HostPanel.cfg p /\
    HostPanel.worker p' = HostPanel.worker p /\
    HostPanel.spark p'
    = push_all (HostPanel.spark p) (map sample_of (HostPanel.out_q p)) /\
    (HostPanel.out_q p = items ++ [d] ->
     HostPanel._last_ok p' = Some (d_ok d) /\
     HostPanel._last_latency p' = Py.or_else (d_latency d) 1000000000000) /\
    (HostPanel.out_q p = [] -> p' = p) /\
    HostPanel._poll_results p' = p' /\
    HostPanel._poll_results (deliver p' more)
    = HostPanel._poll_results (deliver p more).
Proof.
  intros p items more d p'.
  destruct (fold_apply_fields (HostPanel.out_q p) p) as (F1 & F2 & _ & F4).
  split; [reflexivity |].
  split; [exact F1 |].
  split; [exact F2 |].
  split; [exact F4 |].
  split.
  { intros E. unfold p'. rewrite poll_as_fold, E, fold_left_app. simpl.
    split; reflexivity. }
  split.
  { intros E. unfold p'. rewrite poll_as_fold, E. simpl.
    rewrite <- E. apply with_queue_same. }
  split; [reflexivity |].
  unfold p'. rewrite !poll_as_fold.
  change (deliver (with_queue (fold_left HostPanel._apply_result (HostPanel.out_q p) p) []) more)
    with (with_queue (fold_left HostPanel._apply_result (HostPanel.out_q p) p) more).
  change (HostPanel.out_q (with_queue (fold_left HostPanel._apply_result (HostPanel.out_q p) p) more))
    with more.
  change (deliver p more) with (with_queue p (HostPanel.out_q p ++ more)).
  change (HostPanel.out_q (with_queue p (HostPanel.out_q p ++ more)))
    with (HostPanel.out_q p ++ more).
  rewrite !fold_apply_with_queue, fold_left_app, !with_queue_twice.
  reflexivity.
Qed.

Lemma poll_results_drains_witness :
  let d1 := MonitorThread.emit (refused_pass 0) in
  let d2 := MonitorThread.emit
              (MonitorThread.mkCycle false scenario_cfg (Connects 8) 0 0 false) in
  let p := deliver ssh_panel [d1; d2] in
  HostPanel.out_q p = [d1] ++ [d2] /\
  HostPanel._last_ok (HostPanel._poll_results p) = Some true /\
  HostPanel._last_latency (HostPanel._poll_results p) = 8 /\
  Sparkline.points (HostPanel.spark (HostPanel._poll_results p))
  = [(0, false); (8, true)].
Proof.
  intros d1 d2 p.
  assert (E : HostPanel.out_q p = [d1] ++ [d2]) by reflexivity.
  destruct (poll_results_drains p [d1] [] d2) as (_ & _ & _ & W4 & W5 & _).
  destruct (W5 E) as [W6 W7].
  split; [exact E |].
  split; [exact W6 |].
  split; [exact W7 |].
  rewrite W4. reflexivity.
Defined.




(** X10.  A second [start] does nothing: whatever the panel and the
    defaults, starting a panel that has just been started returns it
    unchanged, so no second worker is made and the queue is not replaced
    again. *)
Theorem start_twice_is_start :
  forall (p : HostPanel.t) (d d' : Q * Q),
    HostPanel.start (HostPanel.start p d) d' = HostPanel.start p d.
Proof.
  intros p d d'.
  destruct (HostPanel.worker_alive p) eqn:Ea.
  - assert (E : forall x, HostPanel.start p x = p)
      by (intros x; unfold HostPanel.start; rewrite Ea; reflexivity).
    rewrite !E. reflexivity.
  - destruct (String.eqb (Str.strip (host (HostPanel.cfg p))) EmptyString) eqn:Eb.
    + assert (E : forall x, HostPanel.start p x = p)
        by (intros x; unfold HostPanel.start; rewrite Ea, Eb; reflexivity).
      rewrite !E. reflexivity.
    + destruct d as [di dt].
      remember (HostPanel.start p (di, dt)) as r eqn:Er.
      unfold HostPanel.start in Er. rewrite Ea, Eb in Er.
      subst r. reflexivity.
Qed.



Lemma stop_apply (p : HostPanel.t) (d : ProbeDict) :
  HostPanel._apply_result (HostPanel.stop p) d
  = HostPanel.stop (HostPanel._apply_result p d).
Proof. destruct p as [c [w |] q s lo ll sp]; reflexivity. Qed.

Lemma stop_fold (items : list ProbeDict) :
  forall p, fold_left HostPanel._apply_result items (HostPanel.stop p)
            = HostPanel.stop (fold_left HostPanel._apply_result items p).
Proof.
  induction items as [| d items IH]; intros p; simpl.
  - reflexivity.
  - rewrite stop_apply. apply IH.
Qed.

Lemma stop_fields (p : HostPanel.t) :
  HostPanel.worker (HostPanel.stop p) = None /\
  HostPanel.out_q (HostPanel.stop p) = HostPanel.out_q p /\
  HostPanel.cfg (HostPanel.stop p) = HostPanel.cfg p /\
  HostPanel.spark (HostPanel.stop p) = HostPanel.spark p /\
  HostPanel._last_ok (HostPanel.stop p) = HostPanel._last_ok p /\
  HostPanel._last_latency (HostPanel.stop p) = HostPanel._last_latency p.
Proof. destruct p as [c [w |] q s lo ll sp]; repeat split. Qed.

Lemma stop_with_queue (p : HostPanel.t) (q : list ProbeDict) :
  with_queue (HostPanel.stop p) q = HostPanel.stop (with_queue p q).
Proof. destruct p as [c [w |] q0 s lo ll sp]; reflexivity. Qed.

(** X12.  [stop] forgets the worker and nothing else: a stopped panel has
    no live worker, a second [stop] changes nothing, the config, the window
    and the last state stay, and the results already on the queue are not
    lost: polling after the stop gives what polling before it gives. *)
Theorem stop_forgets_worker :
  forall (p : HostPanel.t),
    HostPanel.worker (HostPanel.stop p) = None /\
    HostPanel.worker_alive (HostPanel.stop p) = false /\
    HostPanel.stop (HostPanel.stop p) = HostPanel.stop p /\
    HostPanel.out_q (HostPanel.stop p) = HostPanel.out_q p /\
    HostPanel.cfg (HostPanel.stop p) = HostPanel.cfg p /\
    HostPanel.spark (HostPanel.stop p) = HostPanel.spark p /\
    HostPanel._last_ok (HostPanel.stop p) = HostPanel._last_ok p /\
    HostPanel._last_latency (HostPanel.stop p) = HostPanel._last_latency p /\
    HostPanel._poll_results (HostPanel.stop p)
    = HostPanel.stop (HostPanel._poll_results p).
Proof.
  intros p.
  destruct (stop_fields p) as (S1 & S2 & S3 & S4 & S5 & S6).
  split; [exact S1 |].
  split; [unfold HostPanel.worker_alive; rewrite S1; reflexivity |].
  split; [destruct p as [c [w |] q s lo ll sp]; reflexivity |].
  split; [exact S2 |].
  split; [exact S3 |].
  split; [exact S4 |].
  split; [exact S5 |].
  split; [exact S6 |].
  rewrite !poll_as_fold, S2, stop_fold, stop_with_queue. reflexivity.
Qed.

Lemma window_matches_after_apply (p : HostPanel.t) (d : ProbeDict) :
  (1 <= Sparkline.max_points (HostPanel.spark p))%Z ->
  window_matches_state (HostPanel._apply_result p d).
Proof.
  intros H. unfold window_matches_state. simpl.
  destruct (push_newest (HostPanel.spark p) (d_latency d) (d_ok d) H) as [older E].
  exists older, (Py.or_else (d_latency d) 0). exact E.
Qed.

Lemma spark_capacity_apply (p : HostPanel.t) (d : ProbeDict) :
  Sparkline.max_points (HostPanel.spark (HostPanel._apply_result p d))
  = Sparkline.max_points (HostPanel.spark p).
Proof. simpl. apply push_max_points. Qed.

Lemma spark_length_apply (p : HostPanel.t) (d : ProbeDict) (n : Z) :
  (1 <= n)%Z ->
  Sparkline.max_points (HostPanel.spark p) = n ->
  (Z.of_nat (List.length (Sparkline.points (HostPanel.spark p))) <= n)%Z ->
  (Z.of_nat (List.length (Sparkline.points
                            (HostPanel.spark (HostPanel._apply_result p d)))) <= n)%Z.
Proof.
  intros Hn Hm Hl. simpl.
  rewrite push_points by lia.
  rewrite length_skipn, length_app. simpl. lia.
Qed.

Lemma start_keeps_history (p : HostPanel.t) (d : Q * Q) :
  HostPanel.spark (HostPanel.start p d) = HostPanel.spark p /\
  HostPanel._last_ok (HostPanel.start p d) = HostPanel._last_ok p.
Proof.
  unfold HostPanel.start.
  destruct (HostPanel.worker_alive p); [split; reflexivity |].
  destruct (String.eqb _ _); [split; reflexivity |].
  destruct d; split; reflexivity.
Qed.

Lemma fold_apply_invariant (items : list ProbeDict) :
  forall p, panel_invariant p ->
            panel_invariant (fold_left HostPanel._apply_result items p).
Proof.
  induction items as [| d items IH]; intros p H; simpl; [exact H |].
  apply IH. destruct H as (H1 & H2 & H3).
  split; [rewrite spark_capacity_apply; exact H1 |].
  split; [apply spark_length_apply; [lia | exact H1 | exact H2] |].
  apply window_matches_after_apply. lia.
Qed.

Lemma invariant_with_queue (p : HostPanel.t) (q : list ProbeDict) :
  panel_invariant p -> panel_invariant (with_queue p q).
Proof. intros H. exact H. Qed.

Lemma apply_op_invariant (p : HostPanel.t) (op : panel_op) :
  panel_invariant p -> panel_invariant (apply_op p op).
Proof.
  intros H. destruct op as [d | | items | | data]; simpl.
  - destruct (start_keeps_history p d) as [E1 E2].
    unfold panel_invariant, window_matches_state in *. rewrite E1, E2. exact H.
  - destruct (stop_fields p) as (_ & _ & _ & E1 & E2 & _).
    unfold panel_invariant, window_matches_state in *. rewrite E1, E2. exact H.
  - exact H.
  - rewrite poll_as_fold. apply invariant_with_queue.
    apply fold_apply_invariant. exact H.
  - apply (fold_apply_invariant [data]). exact H.
Qed.

Lemma init_invariant (c : MonitorConfig) (d : Q * Q) :
  panel_invariant (HostPanel.init c d).
Proof.
  unfold HostPanel.init.
  apply (apply_op_invariant _ (OpStart d)).
  split; [reflexivity |].
  split; [simpl; lia | reflexivity].
Qed.

(** X18.  Whatever is done to a panel after it is made (starts, stops,
    deliveries by the worker, polls, single results), its window keeps the
    capacity 100 and never holds more than 100 points, and the window and
    the last state agree: either no result was ever applied and the window
    is empty, or the newest point of the window carries the last [ok]. *)
Theorem panel_window_invariant :
  forall (c : MonitorConfig) (d : Q * Q) (ops : list panel_op),
    let p := fold_left apply_op ops (HostPanel.init c d) in
    Sparkline.max_points (HostPanel.spark p) = 100%Z /\
    (List.length (Sparkline.points (HostPanel.spark p)) <= 100)%nat /\
    window_matches_state p /\
    (HostPanel._last_ok p = None <-> Sparkline.points (HostPanel.spark p) = []).
Proof.
  intros c d ops p.
  assert (I : panel_invariant p).
  { unfold p. generalize (HostPanel.init c d), (init_invariant c d).
    induction ops as [| op ops IH]; intros p0 H0; simpl; [exact H0 |].
    apply IH. apply apply_op_invariant. exact H0. }
  destruct I as (I1 & I2 & I3).
  split; [exact I1 |].
  split; [lia |].
  split; [exact I3 |].
  unfold window_matches_state in I3.
  destruct (HostPanel._last_ok p) as [b |].
  - destruct I3 as (older & lat & E). rewrite E.
    split; [discriminate |]. intros H. destruct older; discriminate.
  - split; [intros _; exact I3 | reflexivity].
Qed.

End PanelExtras.

(* ================================================================== *)
(** * More on the application *)

Section AppExtras.

Local Open Scope Q_scope.


Lemma start_keeps_identity (p : HostPanel.t) (d : Q * Q) :
  host (HostPanel.cfg (HostPanel.start p d)) = host (HostPanel.cfg p) /\
  port (HostPanel.cfg (HostPanel.start p d)) = port (HostPanel.cfg p).
Proof.
  unfold HostPanel.start.
  destruct (HostPanel.worker_alive p); [split; reflexivity |].
  destruct (String.eqb _ _); [split; reflexivity |].
  destruct d; split; reflexivity.
Qed.




(** X14.  Adding a host from the dialog: an empty host changes nothing;
    otherwise exactly one panel is added, for the host as typed, port 22
    when the port is 0, and the application's defaults; the old panels are
    all kept, the list comes out ordered by the current sort mode, and a
    host of whitespace only yields a panel without a worker. *)
Theorem add_host_adds_one_sorted :
  forall (a : App.t) (h : string) (prt : Z),
    let a' := App._add_host_from_popup a h prt in
    let np := HostPanel.init
                (mkConfig h (if (prt =? 0)%Z then 22%Z else prt)
                          (App.default_interval a) (App.default_timeout a) true)
                (App.default_interval a, App.default_timeout a) in
    (h = EmptyString -> a' = a) /\
    (h <> EmptyString ->
     Permutation (App.panels a ++ [np]) (App.panels a') /\
     List.length (App.panels a') = S (List.length (App.panels a)) /\
     StronglySorted (panel_le (App.sort_by a)) (App.panels a') /\
     host (HostPanel.cfg np) = h /\
     port (HostPanel.cfg np) = (if (prt =? 0)%Z then 22%Z else prt) /\
     (Str.strip h = EmptyString -> HostPanel.worker np = None) /\
     App.default_interval a' = App.default_interval a /\
     App.sort_by a' = App.sort_by a).
Proof.
  intros a h prt a' np. split.
  - intros ->. reflexivity.
  - intros Hne.
    assert (E : App.panels a' = App.ordered (App.sort_by a) (App.panels a ++ [np])).
    { unfold a', App._add_host_from_popup.
      destruct (String.eqb_spec h EmptyString); [contradiction | reflexivity]. }
    assert (Hp : Permutation (App.panels a ++ [np]) (App.panels a'))
      by (rewrite E; apply sorted_perm).
    split; [exact Hp |].
    split.
    { rewrite <- (Permutation_length Hp), length_app. simpl. lia. }
    split.
    { rewrite E.
      apply (sorted_sorted _ _ _ _ _ (panel_cmp_laws _) (key_ltb_spec _)). }
    destruct (start_keeps_identity
                (HostPanel.mk (mkConfig h (if (prt =? 0)%Z then 22%Z else prt)
                                        (App.default_interval a)
                                        (App.default_timeout a) true)
                              None [] "Idle" None 1000000000000 (Sparkline.init 100))
                (App.default_interval a, App.default_timeout a)) as [I1 I2].
    split; [exact I1 |].
    split; [exact I2 |].
    split.
    { intros Hb. unfold np, HostPanel.init, HostPanel.start. simpl.
      rewrite Hb. reflexivity. }
    unfold a', App._add_host_from_popup.
    destruct (String.eqb_spec h EmptyString); [contradiction | split; reflexivity].
Qed.

Lemma add_host_adds_one_sorted_witness :
  "alpha.example"%string <> EmptyString /\
  map (fun p => (host (HostPanel.cfg p), port (HostPanel.cfg p)))
      (App.panels (App._add_host_from_popup two_host_app "alpha.example" 0))
  = [("a.example", 22%Z); ("alpha.example", 22%Z); ("b.example", 22%Z)]%string /\
  List.length (App.panels (App._add_host_from_popup two_host_app "alpha.example" 0))
  = 3%nat.
Proof.
  assert (H : "alpha.example"%string <> EmptyString) by discriminate.
  destruct (add_host_adds_one_sorted two_host_app "alpha.example" 0) as [_ W].
  destruct (W H) as (_ & W2 & _).
  split; [exact H |].
  split; [reflexivity | exact W2].
Defined.

Lemma Qmax_half_twice (v : Q) : Qmax (1 # 2) (Qmax (1 # 2) v) = Qmax (1 # 2) v.
Proof.
  unfold Qmax, GenericMinMax.gmax.
  destruct ((1 # 2) ?= v) eqn:E; [reflexivity | | reflexivity].
  rewrite E. reflexivity.
Qed.

(** X15.  [_set_interval] and [_set_timeout] clamp the value to at least
    0.5 s, store the clamped value as the default interval, respectively
    the default timeout (leaving the other default as it was), and write it
    to every panel, without touching workers, queues, windows or the other
    field; a worker that is
    running computes its next wait from the new interval, and a panel
    created afterwards for a host that is not blank gets the same
    interval. *)
Theorem set_interval_reaches_workers :
  forall (a : App.t) (v : Q) (f : Z) (net : connect_behaviour)
         (t e : Q) (w : bool) (c : MonitorConfig),
    let a1 := App._set_interval a v in
    let a2 := App._set_timeout a v in
    let rest p := (HostPanel.worker p, HostPanel.out_q p, HostPanel.spark p,
                   HostPanel._last_ok p, host (HostPanel.cfg p)) in
    App.default_interval a1 = Qmax (1 # 2) v /\
    App.default_timeout a2 = Qmax (1 # 2) v /\
    App.default_timeout a1 = App.default_timeout a /\
    App.default_interval a2 = App.default_interval a /\
    (1 # 2) <= App.default_interval a1 /\
    (1 # 2) <= App.default_timeout a2 /\
    Forall (fun p => interval (HostPanel.cfg p) = Qmax (1 # 2) v) (App.panels a1) /\
    Forall (fun p => timeout (HostPanel.cfg p) = Qmax (1 # 2) v) (App.panels a2) /\
    map rest (App.panels a1) = map rest (App.panels a) /\
    map rest (App.panels a2) = map rest (App.panels a) /\
    map (fun p => timeout (HostPanel.cfg p)) (App.panels a1)
    = map (fun p => timeout (HostPanel.cfg p)) (App.panels a) /\
    map (fun p => interval (HostPanel.cfg p)) (App.panels a2)
    = map (fun p => interval (HostPanel.cfg p)) (App.panels a) /\
    (forall p, In p (App.panels a1) ->
       MonitorThread.waits
         (MonitorThread.run f [HostPanel.worker_cycle p false net t e w])
       = [MonitorThread.wait (Qmax (1 # 2) v)
            (MonitorThread.update_failures (fst (fst (tcp_ping_try net))) f) e]) /\
    (Str.strip (host c) <> EmptyString ->
     Forall (fun p => interval (HostPanel.cfg p) = Qmax (1 # 2) v)
            (App.panels (App._create_panel a1 c))).
Proof.
  intros a v f net t e w c a1 a2 rest.
  assert (F1 : Forall (fun p => interval (HostPanel.cfg p) = Qmax (1 # 2) v)
                      (App.panels a1)).
  { apply Forall_forall. intros p Hp. simpl in Hp.
    apply in_map_iff in Hp. destruct Hp as (q & <- & _). reflexivity. }
  split; [reflexivity |].
  split; [reflexivity |].
  split; [reflexivity |].
  split; [reflexivity |].
  split; [apply Q.le_max_l |].
  split; [apply Q.le_max_l |].
  split; [exact F1 |].
  split.
  { apply Forall_forall. intros p Hp. simpl in Hp.
    apply in_map_iff in Hp. destruct Hp as (q & <- & _). reflexivity. }
  split; [simpl; rewrite map_map; reflexivity |].
  split; [simpl; rewrite map_map; reflexivity |].
  split; [simpl; rewrite map_map; reflexivity |].
  split; [simpl; rewrite map_map; reflexivity |].
  split.
  { intros p Hp. rewrite one_pass_wait.
    rewrite Forall_forall in F1. rewrite (F1 p Hp). reflexivity. }
  intros Hc. unfold App._create_panel. simpl App.panels.
  apply Forall_app. split; [exact F1 |].
  constructor; [| constructor].
  destruct (start_fresh c (Qmax (1 # 2) v) (App.default_timeout a) Hc) as [E _].
  change (App.default_interval a1) with (Qmax (1 # 2) v).
  change (App.default_timeout a1) with (App.default_timeout a).
  rewrite E. simpl. apply Qmax_half_twice.
Qed.

Lemma set_interval_reaches_workers_witness :
  Str.strip (host slow_cfg) <> EmptyString /\
  map (fun p => interval (HostPanel.cfg p))
      (App.panels (App._create_panel (App._set_interval two_host_app (1 # 10)) slow_cfg))
  = [1 # 2; 1 # 2; 1 # 2] /\
  App.default_timeout (App._set_timeout two_host_app (1 # 10)) = (1 # 2) /\
  App.default_timeout (App._set_timeout two_host_app 7) = 7 /\
  map (fun p => timeout (HostPanel.cfg p)) (App.panels (App._set_timeout two_host_app 7))
  = [7; 7].
Proof.
  assert (H : Str.strip (host slow_cfg) <> EmptyString) by discriminate.
  destruct (set_interval_reaches_workers two_host_app (1 # 10) 0 (Connects 1) 0 0
                                         false slow_cfg)
    as (_ & W2 & _ & _ & _ & _ & _ & _ & _ & _ & _ & _ & _ & W).
  destruct (set_interval_reaches_workers two_host_app 7 0 (Connects 1) 0 0
                                         false slow_cfg)
    as (_ & V2 & _).
  pose proof (W H) as W'.
  split; [exact H |].
  split; [reflexivity |].
  split; [rewrite W2; reflexivity |].
  split; [rewrite V2; reflexivity | reflexivity].
Defined.

Lemma strongly_sorted_weaken (A : Type) (R R' : A -> A -> Prop) (l : list A) :
  (forall x y, R x y -> R' x y) -> StronglySorted R l -> StronglySorted R' l.
Proof.
  intros H S. induction S as [| x l _ IH Hx]; constructor.
  - exact IH.
  - eapply Forall_impl; [| exact Hx]. intros y. apply H.
Qed.

Lemma lex_not_gt_fst (A B : Type) (ca : A -> A -> comparison)
      (cb : B -> B -> comparison) (x y : A * B) :
  lex_cmp ca cb x y <> Gt -> ca (fst x) (fst y) <> Gt.
Proof.
  unfold lex_cmp. destruct (ca (fst x) (fst y)); congruence.
Qed.

Lemma lex_not_gt_snd (A B : Type) (ca : A -> A -> comparison)
      (cb : B -> B -> comparison) (x y : A * B) :
  lex_cmp ca cb x y <> Gt -> ca (fst x) (fst y) = Eq -> cb (snd x) (snd y) <> Gt.
Proof.
  unfold lex_cmp. intros H E. rewrite E in H. exact H.
Qed.

Lemma Qcompare_not_gt (x y : Q) : (x ?= y) <> Gt -> x <= y.
Proof.
  intros H. destruct (Qcompare_spec x y) as [E | E | E].
  - rewrite E. apply Qle_refl.
  - apply Qlt_le_weak. exact E.
  - congruence.
Qed.

(** X16.  What each sort mode shows, for every list of panels.  By status:
    no offline panel (one whose last probe failed or that was never
    probed) stands before an online one, and among panels of the same
    status the last latencies ascend.  By latency: the last latencies
    ascend, so panels without a successful last probe, which carry the
    sentinel 1e12, stand after every panel below it.  By host: the
    lowercase host names ascend. *)
Theorem sort_modes_order :
  forall (ps : list HostPanel.t),
    let lo p := Str.lower (host (HostPanel.get_cfg p)) in
    StronglySorted
      (fun p q => (HostPanel.last_ok q = true -> HostPanel.last_ok p = true) /\
                  (HostPanel.last_ok p = HostPanel.last_ok q ->
                   HostPanel.last_latency p <= HostPanel.last_latency q)%Q)
      (App.ordered "status" ps) /\
    StronglySorted
      (fun p q => (HostPanel.last_latency p <= HostPanel.last_latency q)%Q /\
                  (HostPanel.last_latency p == HostPanel.last_latency q ->
                   String.leb (lo p) (lo q) = true))
      (App.ordered "latency" ps) /\
    StronglySorted (fun p q => String.leb (lo p) (lo q) = true)
                   (App.ordered "host" ps).
Proof.
  intros ps lo.
  assert (S : forall key, StronglySorted (fun p q => panel_cmp key p q <> Gt)
                                         (App.ordered key ps)).
  { intros key.
    eapply strongly_sorted_weaken;
      [| apply (sorted_sorted _ _ _ _ _ (panel_cmp_laws key) (key_ltb_spec key))].
    intros x y H. apply (panel_le_cmp key). exact H. }
  split; [| split].
  - eapply strongly_sorted_weaken; [| apply (S "status"%string)].
    intros p q H. unfold panel_cmp in H. simpl String.eqb in H. cbv iota in H.
    pose proof (lex_not_gt_fst _ _ _ _ _ _ H) as H1. simpl in H1.
    split.
    + intros Hq. rewrite Hq in H1.
      destruct (HostPanel.last_ok p); [reflexivity | exfalso; apply H1; reflexivity].
    + intros E.
      assert (E1 : bool_cmp (negb (HostPanel.last_ok p)) (negb (HostPanel.last_ok q)) = Eq)
        by (rewrite E; destruct (HostPanel.last_ok q); reflexivity).
      pose proof (lex_not_gt_snd _ _ _ _ _ _ H E1) as H2. simpl in H2.
      apply Qcompare_not_gt. apply (lex_not_gt_fst _ _ _ _ _ _ H2).
  - eapply strongly_sorted_weaken; [| apply (S "latency"%string)].
    intros p q H. unfold panel_cmp in H. simpl String.eqb in H. cbv iota in H.
    split.
    + apply Qcompare_not_gt. apply (lex_not_gt_fst _ _ _ _ _ _ H).
    + intros E. apply Qeq_alt in E.
      pose proof (lex_not_gt_snd _ _ _ _ _ _ H E) as H2. simpl in H2.
      unfold String.leb. fold (lo p) (lo q) in H2.
      destruct (String.compare (lo p) (lo q)); congruence.
  - eapply strongly_sorted_weaken; [| apply (S "host"%string)].
    intros p q H. unfold panel_cmp in H. simpl String.eqb in H. cbv iota in H.
    unfold String.leb. fold (lo p) (lo q) in H.
    destruct (String.compare (lo p) (lo q)); congruence.
Qed.

End AppExtras.

(* ================================================================== *)
(** * Persistence *)

Section PersistFacts.

Import Persist.

Variable int_of_str : string -> option Z.
Variable float_of_str : string -> option Q.
Variable str_of_other : json -> string.

Local Abbreviation load_entry := (Persist.load_entry int_of_str float_of_str).
Local Abbreviation load_configs := (Persist._load_configs int_of_str float_of_str).
Local Abbreviation load_defaults := (Persist._load_defaults float_of_str).
Local Abbreviation load_sort := (Persist._load_sort str_of_other).
Local Abbreviation load_theme := (Persist._load_theme str_of_other).
Local Abbreviation app_init := (Persist.app_init int_of_str float_of_str str_of_other).

Local Open Scope Q_scope.

Lemma load_entry_asdict (c : MonitorConfig) : load_entry (asdict c) = EntryOk c.
Proof. destruct c as [h prt i t b]. simpl. destruct b; reflexivity. Qed.

Lemma collect_ok (cs : list MonitorConfig) :
  existsb (fun e => match e with EntryRaises => true | _ => false end)
          (map load_entry (map asdict cs)) = false /\
  collect (map load_entry (map asdict cs)) = Some cs.
Proof.
  induction cs as [| c cs [IH1 IH2]]; cbn [map].
  - split; reflexivity.
  - rewrite load_entry_asdict. cbn [existsb collect]. rewrite IH1, IH2.
    split; reflexivity.
Qed.

(** X19.  What [_save_configs] writes is read back unchanged: the configs
    of the panels in their order, the default interval and timeout, the
    sort mode, the auto-sort and ultra flags, and a theme that is "light" or
    "dark". *)
Theorem save_load_round_trip :
  forall (a : App.t) (u : ui),
    let file := Some (_save_configs a u) in
    load_configs file = Configs (map HostPanel.get_cfg (App.panels a)) /\
    load_defaults file = (App.default_interval a, App.default_timeout a) /\
    load_sort file = App.sort_by a /\
    _load_autosort file = App.auto_sort_var a /\
    _load_ultra file = ultra_var u /\
    (theme_var u = "light"%string \/ theme_var u = "dark"%string ->
     load_theme file = theme_var u).
Proof.
  intros a u file.
  split.
  { unfold file, Persist._load_configs, _save_configs.
    cbn [get String.eqb Ascii.eqb Bool.eqb].
    rewrite <- (map_map (fun p => HostPanel.get_cfg p) asdict).
    destruct (collect_ok (map (fun p => HostPanel.get_cfg p) (App.panels a))) as [E1 E2].
    rewrite E1, E2. reflexivity. }
  split; [reflexivity |].
  split; [reflexivity |].
  split; [unfold file; simpl; destruct (App.auto_sort_var a); reflexivity |].
  split; [unfold file; simpl; destruct (ultra_var u); reflexivity |].
  intros [E | E]; unfold file, Persist._load_theme, _save_configs;
    cbn [get String.eqb Ascii.eqb Bool.eqb Persist.py_str]; rewrite E; reflexivity.
Qed.

Lemma existsb_raises (es : list entry) :
  In EntryRaises es ->
  existsb (fun e => match e with EntryRaises => true | _ => false end) es = true.
Proof.
  intros H. apply existsb_exists. exists EntryRaises. split; [exact H | reflexivity].
Qed.

(** X20.  Reading the hosts fails as a whole and falls back on defaults
    key by key.  A file that is missing or is not a dict, and a ["hosts"]
    that is not a list, give no config; an entry gets "example.com", 22,
    2.0, 2.0 and [True] for the keys it lacks; an entry raises exactly when
    it is not a dict or its port, interval or timeout does not convert; an
    [int] converts to the nearest float, and does not convert when it is
    beyond the floats (an interval or timeout of [10**400] raises, the
    largest [int] that converts is [2**1024 - 2**970 - 1]); and one entry
    that raises empties the whole result, the good entries included. *)
Theorem load_configs_all_or_nothing :
  forall (raw : list (string * json)) (items : list json) (it other : json)
         (d : list (string * json)),
    load_configs None = Configs [] /\
    (match other with JDict _ => False | _ => True end ->
     load_configs (Some other) = Configs [] /\ load_entry other = EntryRaises) /\
    (match get raw "hosts" (JList []) with JList _ => False | _ => True end ->
     load_configs (Some (JDict raw)) = Configs []) /\
    load_entry (JDict []) = EntryOk (mkConfig "example.com" 22 2 2 true) /\
    (load_entry (JDict d) = EntryRaises <->
     Persist.py_int int_of_str (get d "port" (JInt 22)) = None \/
     Persist.py_float float_of_str (get d "interval" (JFloat 2)) = None \/
     Persist.py_float float_of_str (get d "timeout" (JFloat 2)) = None) /\
    (Persist.py_float float_of_str (JInt 22) = Some 22 /\
     Persist.py_float float_of_str (JInt (2 ^ 53 + 1)) = Some (inject_Z (2 ^ 53)) /\
     Persist.py_float float_of_str (JInt (2 ^ 1024 - 2 ^ 970 - 1))
     = Some (inject_Z (2 ^ 1024 - 2 ^ 971)) /\
     Persist.py_float float_of_str (JInt (2 ^ 1024 - 2 ^ 970)) = None /\
     Persist.py_float float_of_str (JInt (10 ^ 400)) = None /\
     Persist.py_float float_of_str (JInt (- 10 ^ 400)) = None) /\
    (get d "interval" (JFloat 2) = JInt (10 ^ 400) \/
     get d "timeout" (JFloat 2) = JInt (10 ^ 400) ->
     load_entry (JDict d) = EntryRaises) /\
    (get raw "hosts" (JList []) = JList items -> In it items ->
     load_entry it = EntryRaises ->
     load_configs (Some (JDict raw)) = Configs []).
Proof using int_of_str float_of_str.
  clear str_of_other. intros raw items it other d.
  assert (Hbig : Persist.py_float float_of_str (JInt (10 ^ 400)) = None)
    by (vm_compute; reflexivity).
  assert (Hiff : load_entry (JDict d) = EntryRaises <->
     Persist.py_int int_of_str (get d "port" (JInt 22)) = None \/
     Persist.py_float float_of_str (get d "interval" (JFloat 2)) = None \/
     Persist.py_float float_of_str (get d "timeout" (JFloat 2)) = None).
  { unfold Persist.load_entry.
    destruct (Persist.py_int int_of_str (get d "port" (JInt 22)));
      destruct (Persist.py_float float_of_str (get d "interval" (JFloat 2)));
      destruct (Persist.py_float float_of_str (get d "timeout" (JFloat 2)));
      try (split; [reflexivity | tauto]); try tauto.
    - split.
      + destruct (get d "host" (JStr "example.com")); discriminate.
      + intros [H | [H | H]]; discriminate. }
  split; [reflexivity |].
  split.
  { intros H. destruct other; try contradiction; split; reflexivity. }
  split.
  { intros H. unfold Persist._load_configs.
    destruct (get raw "hosts" (JList [])); try contradiction; reflexivity. }
  split; [reflexivity |].
  split; [exact Hiff |].
  split.
  { repeat split; vm_compute; reflexivity. }
  split.
  { intros [H | H]; apply Hiff; rewrite H; tauto. }
  intros E Hin Hr. unfold Persist._load_configs. rewrite E.
  rewrite existsb_raises; [reflexivity |].
  rewrite <- Hr. apply in_map. exact Hin.
Qed.

Lemma fold_create_panels (cs : list MonitorConfig) :
  forall a,
    App.panels (fold_left App._create_panel cs a)
    = App.panels a
      ++ map (fun c => HostPanel.init c (App.default_interval a, App.default_timeout a)) cs
    /\ App.default_interval (fold_left App._create_panel cs a) = App.default_interval a
    /\ App.default_timeout (fold_left App._create_panel cs a) = App.default_timeout a
    /\ App.sort_by (fold_left App._create_panel cs a) = App.sort_by a.
Proof.
  induction cs as [| c cs IH]; intros a; simpl.
  - rewrite app_nil_r. repeat split.
  - destruct (IH (App._create_panel a c)) as (I1 & I2 & I3 & I4).
    rewrite I1, I2, I3, I4. simpl. rewrite <- app_assoc. repeat split.
Qed.

(** X21.  The application never starts without a panel: when the file
    yields configs, there is one panel per config, and when it yields none
    (no file, a broken file, an empty list) there is the one panel of the
    command-line config; the panels are made with the loaded defaults and
    stand in the order of the loaded sort mode. *)
Theorem app_init_panels :
  forall (cli : MonitorConfig) (file : option json) (cs : list MonitorConfig),
    load_configs file = Configs cs ->
    exists a,
      app_init cli file = Some a /\
      Permutation
        (map (fun c => HostPanel.init c (load_defaults file))
             (match cs with [] => [cli] | _ => cs end))
        (App.panels a) /\
      List.length (App.panels a) = Nat.max 1 (List.length cs) /\
      StronglySorted (panel_le (load_sort file)) (App.panels a) /\
      (App.default_interval a, App.default_timeout a) = load_defaults file /\
      App.sort_by a = load_sort file.
Proof.
  intros cli file cs E.
  unfold Persist.app_init. rewrite E.
  destruct (load_defaults file) as [di dt] eqn:Ed.
  set (configs := match cs with [] => [cli] | _ => cs end).
  set (empty := App.mk [] di dt (load_sort file) (_load_autosort file)).
  destruct (fold_create_panels configs empty) as (F1 & F2 & F3 & F4).
  simpl in F1, F2, F3, F4.
  eexists. split; [reflexivity |].
  assert (P : Permutation (map (fun c => HostPanel.init c (di, dt)) configs)
                          (App.panels (App._sort_panels
                                         (fold_left App._create_panel configs empty)))).
  { simpl. rewrite F4, F1. apply sorted_perm. }
  split; [exact P |].
  split.
  { rewrite <- (Permutation_length P), length_map.
    unfold configs. destruct cs; simpl; lia. }
  split.
  { simpl. rewrite F4.
    apply (sorted_sorted _ _ _ _ _ (panel_cmp_laws _) (key_ltb_spec _)). }
  split; [simpl; rewrite F2, F3; reflexivity |].
  simpl. exact F4.
Qed.

(** X22.  The saved defaults can be lost and are not trusted: when the
    file's alpha, default interval or default timeout does not convert to a
    float (an [int] beyond the floats, such as [10**400], does not), both
    defaults fall back to 2.0 s, whatever the others are; when the three
    convert, the converted interval and timeout are the defaults; and
    whatever default interval is loaded, every panel of the application
    whose host is not blank starts with an interval of at least 0.5 s. *)
Theorem load_defaults_fallback :
  forall (raw : list (string * json)) (cli : MonitorConfig) (file : option json)
         (a : App.t),
    (Persist.py_float float_of_str (get raw "alpha" (JFloat 1)) = None \/
     Persist.py_float float_of_str (get raw "default_interval" (JFloat 2)) = None \/
     Persist.py_float float_of_str (get raw "default_timeout" (JFloat 2)) = None ->
     load_defaults (Some (JDict raw)) = (2, 2)) /\
    (get raw "alpha" (JFloat 1) = JInt (10 ^ 400) \/
     get raw "default_interval" (JFloat 2) = JInt (10 ^ 400) \/
     get raw "default_timeout" (JFloat 2) = JInt (10 ^ 400) ->
     load_defaults (Some (JDict raw)) = (2, 2)) /\
    (forall al i t,
        Persist.py_float float_of_str (get raw "alpha" (JFloat 1)) = Some al ->
        Persist.py_float float_of_str (get raw "default_interval" (JFloat 2)) = Some i ->
        Persist.py_float float_of_str (get raw "default_timeout" (JFloat 2)) = Some t ->
        load_defaults (Some (JDict raw)) = (i, t)) /\
    load_defaults None = (2, 2) /\
    (app_init cli file = Some a ->
     Forall (fun p => Str.strip (host (HostPanel.cfg p)) = EmptyString \/
                      (1 # 2) <= interval (HostPanel.cfg p))
            (App.panels a)).
Proof.
  intros raw cli file a.
  assert (Hbig : Persist.py_float float_of_str (JInt (10 ^ 400)) = None)
    by (vm_compute; reflexivity).
  assert (Hnone :
     Persist.py_float float_of_str (get raw "alpha" (JFloat 1)) = None \/
     Persist.py_float float_of_str (get raw "default_interval" (JFloat 2)) = None \/
     Persist.py_float float_of_str (get raw "default_timeout" (JFloat 2)) = None ->
     load_defaults (Some (JDict raw)) = (2, 2)).
  { intros H. unfold Persist._load_defaults.
    destruct (Persist.py_float float_of_str (get raw "alpha" (JFloat 1)));
      destruct (Persist.py_float float_of_str (get raw "default_interval" (JFloat 2)));
      destruct (Persist.py_float float_of_str (get raw "default_timeout" (JFloat 2)));
      try reflexivity.
    destruct H as [H | [H | H]]; discriminate. }
  split; [exact Hnone |].
  split.
  { intros [H | [H | H]]; apply Hnone; rewrite H; tauto. }
  split.
  { intros al i t H1 H2 H3. unfold Persist._load_defaults.
    rewrite H1, H2, H3. reflexivity. }
  split; [reflexivity |].
  intros Hinit.
  destruct (load_configs file) as [cs |] eqn:E.
  - destruct (app_init_panels cli file cs E) as (a' & Ha & P & _).
    rewrite Ha in Hinit. injection Hinit as <-.
    eapply Permutation_Forall; [exact P |].
    apply Forall_forall. intros p Hp. apply in_map_iff in Hp.
    destruct Hp as (c & <- & _).
    destruct (load_defaults file) as [di dt].
    destruct (String.eqb_spec (Str.strip (host c)) EmptyString) as [Hb | Hb].
    + left. unfold HostPanel.init, HostPanel.start. simpl. rewrite Hb. exact Hb.
    + right. destruct (start_fresh c di dt Hb) as [Ec _]. rewrite Ec. simpl.
      apply Q.le_max_l.
  - unfold Persist.app_init in Hinit. rewrite E in Hinit.
    destruct (load_defaults file). discriminate.
Qed.

Lemma get_set (d : list (string * json)) (k k' : string) (v dflt : json) :
  get (set d k v) k' dflt = if String.eqb k k' then v else get d k' dflt.
Proof.
  induction d as [| [k0 x] d IH]; simpl.
  - destruct (String.eqb k k'); reflexivity.
  - destruct (String.eqb_spec k0 k) as [-> | Hne]; simpl.
    + destruct (String.eqb k k'); reflexivity.
    + destruct (String.eqb_spec k0 k') as [-> | Hne'].
      * destruct (String.eqb_spec k k') as [-> | _]; [contradiction | reflexivity].
      * exact IH.
Qed.

(** X23.  [_persist_defaults] merges into the file instead of replacing
    it: on a file that holds a dict, or on no file, it writes a dict from
    which the loaders read exactly the current configs, defaults, sort
    mode and flags, and in which every other key of the old file keeps its
    value; a file that holds something else than a dict is left as it
    is. *)
Theorem persist_defaults_merges :
  forall (a : App.t) (u : ui) (d : list (string * json)) (other : json)
         (k : string) (dflt : json),
    (match other with JDict _ => False | _ => True end ->
     _persist_defaults (Some other) a u = Some other) /\
    (forall file, file = None \/ file = Some (JDict d) ->
       exists d',
         _persist_defaults file a u = Some (JDict d') /\
         load_configs (Some (JDict d'))
         = Configs (map HostPanel.get_cfg (App.panels a)) /\
         load_defaults (Some (JDict d'))
         = (App.default_interval a, App.default_timeout a) /\
         load_sort (Some (JDict d')) = App.sort_by a /\
         _load_autosort (Some (JDict d')) = App.auto_sort_var a /\
         _load_ultra (Some (JDict d')) = ultra_var u /\
         (file = Some (JDict d) ->
          In k ["default_interval"; "default_timeout"; "alpha"; "theme";
                "sort_by"; "auto_sort"; "ultra"; "hosts"]%string \/
          get d' k dflt = get d k dflt)).
Proof.
  intros a u d other k dflt. split.
  - intros H. destruct other; try contradiction; reflexivity.
  - assert (W : forall d0,
               exists d',
                 _persist_defaults (Some (JDict d0)) a u = Some (JDict d') /\
                 load_configs (Some (JDict d'))
                 = Configs (map HostPanel.get_cfg (App.panels a)) /\
                 load_defaults (Some (JDict d'))
                 = (App.default_interval a, App.default_timeout a) /\
                 load_sort (Some (JDict d')) = App.sort_by a /\
                 _load_autosort (Some (JDict d')) = App.auto_sort_var a /\
                 _load_ultra (Some (JDict d')) = ultra_var u /\
                 (In k ["default_interval"; "default_timeout"; "alpha"; "theme";
                        "sort_by"; "auto_sort"; "ultra"; "hosts"]%string \/
                  get d' k dflt = get d0 k dflt)).
    { intros d0. eexists. split; [reflexivity |].
      split.
      { unfold Persist._load_configs. rewrite !get_set.
        cbn [String.eqb Ascii.eqb Bool.eqb].
        rewrite <- (map_map (fun p => HostPanel.get_cfg p) asdict).
        destruct (collect_ok (map (fun p => HostPanel.get_cfg p) (App.panels a)))
          as [E1 E2].
        rewrite E1, E2. reflexivity. }
      split.
      { unfold Persist._load_defaults. rewrite !get_set.
        cbn [String.eqb Ascii.eqb Bool.eqb]. reflexivity. }
      split.
      { unfold Persist._load_sort. rewrite !get_set.
        cbn [String.eqb Ascii.eqb Bool.eqb]. reflexivity. }
      split.
      { unfold Persist._load_autosort. rewrite !get_set.
        cbn [String.eqb Ascii.eqb Bool.eqb]. destruct (App.auto_sort_var a); reflexivity. }
      split.
      { unfold Persist._load_ultra. rewrite !get_set.
        cbn [String.eqb Ascii.eqb Bool.eqb]. destruct (ultra_var u); reflexivity. }
      rewrite !get_set.
      repeat match goal with
             | |- context [String.eqb ?x k] =>
                 destruct (String.eqb_spec x k) as [<- | _];
                 [left; cbn; tauto |]
             end.
      right. reflexivity. }
    intros file [-> | ->].
    + destruct (W []) as (d' & W1 & W2 & W3 & W4 & W5 & W6 & _).
      exists d'. repeat split; try assumption. discriminate.
    + destruct (W d) as (d' & W1 & W2 & W3 & W4 & W5 & W6 & W7).
      exists d'. repeat split; try assumption. intros _. exact W7.
Qed.

End PersistFacts.

Lemma save_load_round_trip_witness :
  let u := Persist.mkUi 1 "light" false in
  (Persist.theme_var u = "light"%string \/ Persist.theme_var u = "dark"%string) /\
  Persist._load_theme (fun _ => EmptyString) (Some (Persist._save_configs two_host_app u))
  = "light"%string /\
  Persist._load_configs (fun _ => None) (fun _ => None)
                        (Some (Persist._save_configs two_host_app u))
  = Persist.Configs (map HostPanel.get_cfg (App.panels two_host_app)).
Proof.
  intros u.
  assert (H : Persist.theme_var u = "light"%string \/ Persist.theme_var u = "dark"%string)
    by (left; reflexivity).
  destruct (save_load_round_trip (fun _ => None) (fun _ => None) (fun _ => EmptyString)
                                 two_host_app u)
    as (W1 & _ & _ & _ & _ & W6).
  split; [exact H |].
  split; [exact (W6 H) | exact W1].
Defined.

Lemma load_configs_all_or_nothing_witness :
  let good := Persist.asdict fast_cfg in
  let bad := JDict [("host"%string, JStr "b.example");
                    ("interval"%string, JInt (10 ^ 400))] in
  let raw := [("hosts"%string, JList [good; bad])] in
  Persist.get raw "hosts" (JList []) = JList [good; bad] /\ In bad [good; bad] /\
  Persist.load_entry (fun _ => None) (fun _ => None) good = Persist.EntryOk fast_cfg /\
  Persist.load_entry (fun _ => None) (fun _ => None) bad = Persist.EntryRaises /\
  Persist._load_configs (fun _ => None) (fun _ => None) (Some (JDict raw))
  = Persist.Configs [] /\
  Persist._load_configs (fun _ => None) (fun _ => None)
                        (Some (JDict [("hosts"%string, JList [good])]))
  = Persist.Configs [fast_cfg].
Proof.
  intros good bad raw.
  assert (E : Persist.get raw "hosts" (JList []) = JList [good; bad]) by reflexivity.
  assert (Hin : In bad [good; bad]) by (right; left; reflexivity).
  destruct (load_configs_all_or_nothing
              (fun _ => None) (fun _ => None) raw [good; bad] bad JNull
              [("host"%string, JStr "b.example"); ("interval"%string, JInt (10 ^ 400))])
    as (_ & _ & _ & _ & _ & _ & W7 & W).
  assert (Hr : Persist.load_entry (fun _ => None) (fun _ => None) bad
               = Persist.EntryRaises) by (apply W7; left; reflexivity).
  split; [exact E |].
  split; [exact Hin |].
  split; [reflexivity |].
  split; [exact Hr |].
  split; [exact (W E Hin Hr) | reflexivity].
Defined.

Lemma app_init_panels_witness :
  let file := Some saved_file in
  Persist._load_configs (fun _ => None) (fun _ => None) file
  = Persist.Configs [slow_cfg; fast_cfg] /\
  exists a,
    Persist.app_init (fun _ => None) (fun _ => None) (fun _ => EmptyString)
                     scenario_cfg file = Some a /\
    List.length (App.panels a) = 2%nat /\
    map (fun p => host (HostPanel.cfg p)) (App.panels a)
    = ["a.example"; "b.example"]%string /\
    map (fun p => (interval (HostPanel.cfg p), timeout (HostPanel.cfg p))) (App.panels a)
    = [(5, 3); (5, 3)] /\
    (App.default_interval a, App.default_timeout a) = (5, 3) /\
    App.sort_by a = "host"%string.
Proof.
  intros file.
  assert (E : Persist._load_configs (fun _ => None) (fun _ => None) file
              = Persist.Configs [slow_cfg; fast_cfg]) by reflexivity.
  destruct (app_init_panels (fun _ => None) (fun _ => None) (fun _ => EmptyString)
                            scenario_cfg file [slow_cfg; fast_cfg] E)
    as (a & W1 & _ & W3 & _ & W5 & W6).
  split; [exact E |].
  exists a. split; [exact W1 |].
  split; [exact W3 |].
  assert (Ha : Some a = Persist.app_init (fun _ => None) (fun _ => None)
                                         (fun _ => EmptyString) scenario_cfg file)
    by (symmetry; exact W1).
  vm_compute in Ha. injection Ha as ->.
  split; [reflexivity |].
  split; [reflexivity |].
  split; [vm_compute; reflexivity | reflexivity].
Defined.

Lemma load_defaults_fallback_witness :
  let raw := [("alpha"%string, JFloat 1);
              ("default_interval"%string, JInt (10 ^ 400));
              ("default_timeout"%string, JFloat 4)] in
  let kept := [("alpha"%string, JFloat 1);
               ("default_interval"%string, JInt 10);
               ("default_timeout"%string, JFloat 4)] in
  (Persist.get raw "alpha" (JFloat 1) = JInt (10 ^ 400) \/
   Persist.get raw "default_interval" (JFloat 2) = JInt (10 ^ 400) \/
   Persist.get raw "default_timeout" (JFloat 2) = JInt (10 ^ 400)) /\
  Persist._load_defaults (fun _ => None) (Some (JDict raw)) = (2, 2) /\
  Persist._load_defaults (fun _ => None) (Some (JDict kept)) = (10, 4).
Proof.
  intros raw kept.
  assert (H : Persist.get raw "alpha" (JFloat 1) = JInt (10 ^ 400) \/
              Persist.get raw "default_interval" (JFloat 2) = JInt (10 ^ 400) \/
              Persist.get raw "default_timeout" (JFloat 2) = JInt (10 ^ 400))
    by (right; left; reflexivity).
  destruct (load_defaults_fallback (fun _ => None) (fun _ => None) (fun _ => EmptyString)
                                   raw scenario_cfg None two_host_app) as (_ & W & _).
  destruct (load_defaults_fallback (fun _ => None) (fun _ => None) (fun _ => EmptyString)
                                   kept scenario_cfg None two_host_app) as (_ & _ & V & _).
  split; [exact H |].
  split; [exact (W H) |].
  apply (V 1 10 4); vm_compute; reflexivity.
Defined.

Lemma persist_defaults_merges_witness :
  let d := [("window"%string, JStr "820x620"); ("sort_by"%string, JStr "host")] in
  let u := Persist.mkUi 1 "dark" false in
  exists d',
    Persist._persist_defaults (Some (JDict d)) two_host_app u = Some (JDict d') /\
    Persist.get d' "window" JNull = JStr "820x620" /\
    Persist._load_sort (fun _ => EmptyString) (Some (JDict d')) = "status"%string.
Proof.
  intros d u.
  destruct (persist_defaults_merges (fun _ => None) (fun _ => None) (fun _ => EmptyString)
                                    two_host_app u d JNull "window" JNull) as [_ W].
  destruct (W (Some (JDict d)) (or_intror eq_refl))
    as (d' & W1 & _ & _ & W4 & _ & _ & W7).
  exists d'. split; [exact W1 |].
  split; [| exact W4].
  destruct (W7 eq_refl) as [Hin | E]; [| exact E].
  exfalso. simpl in Hin.
  repeat (destruct Hin as [Hin | Hin]; [discriminate |]). exact Hin.
Defined.
